(** * scripts/convert_pincodes.py: the PIN code converter

    A shallow embedding of the converter script and the properties of its
    specification.  Python [str] values are [string]s whose characters are
    the code points U+0000 to U+00FF; a [dict] that is only read is a
    [gmap], a [dict] that is written out keeps its insertion order. *)

From Stdlib Require Import ZArith Lia Ascii String List DecimalString.
From stdpp Require Import base option list strings gmap.

Local Open Scope string_scope.
Local Open Scope list_scope.

(** ** Python values met in a CSV row *)

(** A cell read by [csv.DictReader] is a [str], or [None] for a cell that a
    short line does not have ([restval]). *)
Inductive pyval : Type :=
  | PNone
  | PStr (s : string).

#[global] Instance pyval_eq_dec : EqDecision pyval.
Proof. solve_decision. Defined.

(** Truth value of a string and of a cell: [None] and [''] are false. *)
Definition nonempty (s : string) : bool :=
  match s with
  | EmptyString => false
  | String _ _ => true
  end.

Definition truthy (v : pyval) : bool :=
  match v with
  | PNone => false
  | PStr s => nonempty s
  end.

(** [a or b] *)
Definition py_or (a b : pyval) : pyval := if truthy a then a else b.

(** [a or ''], whose value is always a [str] *)
Definition or_str (a : pyval) (d : string) : string :=
  match a with
  | PStr (String c s) => String c s
  | _ => d
  end.

(** [str(v)] *)
Definition py_str (v : pyval) : string :=
  match v with
  | PNone => "None"
  | PStr s => s
  end.

Declare Scope py_scope.
Delimit Scope py_scope with py.
Infix "`or`" := py_or (at level 50, left associativity) : py_scope.
Local Open Scope py_scope.

(** ** [str.strip()] *)

(** [str.isspace] on one character, for the code points below 256. *)
Definition isspace (c : ascii) : bool :=
  let n := nat_of_ascii c in
  ((9 <=? n) && (n <=? 13) || (28 <=? n) && (n <=? 31)
   || (n =? 32) || (n =? 133) || (n =? 160))%nat.

Fixpoint lstrip (s : string) : string :=
  match s with
  | EmptyString => EmptyString
  | String c s' => if isspace c then lstrip s' else s
  end.

Fixpoint rstrip (s : string) : string :=
  match s with
  | EmptyString => EmptyString
  | String c s' =>
      match rstrip s' with
      | EmptyString => if isspace c then EmptyString else String c EmptyString
      | t => String c t
      end
  end.

Definition strip (s : string) : string := rstrip (lstrip s).

Fixpoint all_space (s : string) : bool :=
  match s with
  | EmptyString => true
  | String c s' => isspace c && all_space s'
  end.

(** ** Rows and [normalize_record] *)

(** A row of [csv.DictReader]: column name to cell.  [row.get(k)] is [None]
    for a column the header does not have.  The extra cells of a long line,
    which the reader keeps under the key [None], are never read. *)
Abbreviation Row := (gmap string pyval).

Definition get (row : Row) (k : string) : pyval :=
  match row !! k with
  | Some v => v
  | None => PNone
  end.

Record PincodeRecord : Type := mkRecord {
  pincode : string;
  officeName : string;
  district : string;
  state : string
}.

#[global] Instance PincodeRecord_eq_dec : EqDecision PincodeRecord.
Proof. solve_decision. Defined.

Definition normalize_record (row : Row) : PincodeRecord :=
  let p := get row "pincode" `or` get row "PINCODE" `or` get row "Pincode"
           `or` get row "PinCode" in
  let office := or_str (get row "officeName" `or` get row "OFFICENAME"
                        `or` get row "OfficeName" `or` get row "office"
                        `or` get row "Office") "" in
  let district := or_str (get row "district" `or` get row "DISTRICT"
                          `or` get row "District") "" in
  let state := or_str (get row "state" `or` get row "STATE"
                       `or` get row "State") "" in
  {| pincode := strip (py_str p);
     officeName := strip office;
     district := strip district;
     state := strip state |}.

(** ** Dictionaries that are written out

    A Python [dict] keeps its keys in insertion order, and [json.dump]
    writes them in that order; assigning to a key that is present keeps its
    place. *)
Module PyDict.

Definition t (V : Type) : Type := list (string * V).

Definition empty {V} : t V := [].

Fixpoint lookup {V} (d : t V) (k : string) : option V :=
  match d with
  | [] => None
  | (k', v) :: d' => if String.eqb k k' then Some v else lookup d' k
  end.

(** [d[k] = v] *)
Fixpoint set {V} (k : string) (v : V) (d : t V) : t V :=
  match d with
  | [] => [(k, v)]
  | (k', v') :: d' =>
      if String.eqb k k' then (k, v) :: d' else (k', v') :: set k v d'
  end.

(** [d.setdefault(k, dflt)]: the value under [k], and the dictionary,
    which has gained [k] when it was absent. *)
Definition setdefault {V} (k : string) (dflt : V) (d : t V) : V * t V :=
  match lookup d k with
  | Some v => (v, d)
  | None => (dflt, set k dflt d)
  end.

Definition keys {V} (d : t V) : list string := map fst d.

End PyDict.

(** ** The accumulation loop of [main] (postal-code table) *)

Abbreviation PincodeIndex := (PyDict.t PincodeRecord).

Definition acc_step (st : list PincodeRecord * PincodeIndex) (r : Row)
  : list PincodeRecord * PincodeIndex :=
  let rec := normalize_record r in
  if negb (nonempty (pincode rec)) then st
  else (fst st ++ [rec], PyDict.set (pincode rec) rec (snd st)).

Definition accumulate (rows : list Row) : list PincodeRecord * PincodeIndex :=
  fold_left acc_step rows ([], PyDict.empty).

(** ** The bank loop of [main] *)

Record BankEntry : Type := mkEntry {
  bank : string;
  status : string
}.

#[global] Instance BankEntry_eq_dec : EqDecision BankEntry.
Proof. solve_decision. Defined.

Abbreviation BankMap := (PyDict.t (list BankEntry)).

Definition bank_pincode (b : Row) : string :=
  strip (or_str (get b "pincode" `or` get b "PINCODE" `or` get b "Pincode"
                 `or` get b "PinCode") "").

Definition bank_entry (b : Row) : BankEntry :=
  {| bank := strip (or_str (get b "bank" `or` get b "Bank" `or` get b "BANK") "");
     status := strip (or_str (get b "status" `or` get b "Status"
                              `or` get b "STATUS") "") |}.

Definition bank_step (bank_map : BankMap) (b : Row) : BankMap :=
  let p := bank_pincode b in
  let e := bank_entry b in
  if negb (nonempty p) then bank_map
  else
    let '(l, m) := PyDict.setdefault p [] bank_map in
    PyDict.set p (l ++ [e]) m.

Definition bank_accumulate (bank_rows : list Row) : BankMap :=
  fold_left bank_step bank_rows PyDict.empty.

(** ** What the specification calls the first non-empty cell

    The cell of the first column name, in the order given, whose cell is a
    non-empty string. *)
Fixpoint first_nonempty (row : Row) (variants : list string) : option string :=
  match variants with
  | [] => None
  | k :: ks =>
      match get row k with
      | PStr (String c s) => Some (String c s)
      | _ => first_nonempty row ks
      end
  end.

Definition pincode_variants : list string :=
  ["pincode"; "PINCODE"; "Pincode"; "PinCode"].
Definition officeName_variants : list string :=
  ["officeName"; "OFFICENAME"; "OfficeName"; "office"; "Office"].
Definition district_variants : list string := ["district"; "DISTRICT"; "District"].
Definition state_variants : list string := ["state"; "STATE"; "State"].
Definition bank_variants : list string := ["bank"; "Bank"; "BANK"].
Definition status_variants : list string := ["status"; "Status"; "STATUS"].

(** A row is kept by the loop when the test [not rec['pincode']] fails. *)
Definition kept (r : Row) : bool := nonempty (pincode (normalize_record r)).

Definition has_pincode (k : string) (rec : PincodeRecord) : bool :=
  String.eqb (pincode rec) k.

Definition bank_kept (b : Row) : bool := nonempty (bank_pincode b).

(** The kept rows whose normalized pincode is [k]. *)
Definition rows_with (k : string) (rows : list Row) : list Row :=
  List.filter (fun r => kept r && has_pincode k (normalize_record r)) rows.


(** ** [json.dump(obj, f, ensure_ascii=False, indent=2)]

    The values the script writes are lists and dictionaries of strings.
    The text is the one the encoder of the [json] module produces with an
    indent of two spaces, the separators [,] and [: ], and characters
    above U+001F written as they are. *)
#[local] Set Warnings "-register-all".
Inductive json : Type :=
  | JNull
  | JBool (b : bool)
  | JStr (s : string)
  | JList (l : list json)
  | JDict (d : list (string * json)).

Definition dquote : ascii := "034"%char.
Definition backslash : ascii := "\"%char.

Definition hexdigit (n : nat) : ascii :=
  match String.get n "0123456789abcdef" with
  | Some c => c
  | None => "0"%char
  end.

(** One character of a string, as in the encoder's table of escapes. *)
Definition escape_char (c : ascii) : string :=
  let n := nat_of_ascii c in
  if Ascii.eqb c dquote then String backslash (String dquote "")
  else if Ascii.eqb c backslash then "\\"
  else if (n =? 10)%nat then "\n"
  else if (n =? 13)%nat then "\r"
  else if (n =? 9)%nat then "\t"
  else if (n =? 8)%nat then "\b"
  else if (n =? 12)%nat then "\f"
  else if (n <? 32)%nat
       then "\u00" +:+ String (hexdigit (n / 16)) (String (hexdigit (n mod 16)) "")
  else String c "".

Fixpoint escape (s : string) : string :=
  match s with
  | EmptyString => ""
  | String c s' => escape_char c +:+ escape s'
  end.

Definition encode_basestring (s : string) : string :=
  String dquote (escape s +:+ String dquote "").

Fixpoint spaces (n : nat) : string :=
  match n with
  | O => ""
  | S n' => "  " +:+ spaces n'
  end.

(** A line break followed by the indentation of nesting level [lvl]. *)
Definition newline_indent (lvl : nat) : string :=
  String "010"%char (spaces lvl).

Fixpoint join (sep : string) (chunks : list string) : string :=
  match chunks with
  | [] => ""
  | [c] => c
  | c :: cs => c +:+ sep +:+ join sep cs
  end.

Fixpoint iterencode (lvl : nat) (v : json) : string :=
  match v with
  | JNull => "null"
  | JBool true => "true"
  | JBool false => "false"
  | JStr s => encode_basestring s
  | JList [] => "[]"
  | JList l =>
      "[" +:+ newline_indent (S lvl)
      +:+ join ("," +:+ newline_indent (S lvl)) (map (iterencode (S lvl)) l)
      +:+ newline_indent lvl +:+ "]"
  | JDict [] => "{}"
  | JDict d =>
      "{" +:+ newline_indent (S lvl)
      +:+ join ("," +:+ newline_indent (S lvl))
            (map (fun kv => encode_basestring (fst kv) +:+ ": "
                            +:+ iterencode (S lvl) (snd kv)) d)
      +:+ newline_indent lvl +:+ "}"
  end.

Definition json_dump (v : json) : string := iterencode 0 v.

(** The script's values as JSON values. *)
Definition record_json (rec : PincodeRecord) : json :=
  JDict [("pincode", JStr (pincode rec)); ("officeName", JStr (officeName rec));
         ("district", JStr (district rec)); ("state", JStr (state rec))].

Definition records_json (records : list PincodeRecord) : json :=
  JList (map record_json records).

Definition index_json (index : PincodeIndex) : json :=
  JDict (map (fun kv => (fst kv, record_json (snd kv))) index).

Definition entry_json (e : BankEntry) : json :=
  JDict [("bank", JStr (bank e)); ("status", JStr (status e))].

Definition bank_map_json (bank_map : BankMap) : json :=
  JDict (map (fun kv => (fst kv, JList (map entry_json (snd kv)))) bank_map).

(** ** [json.load]

    The decoder of the [json] module on the values above: strings, arrays,
    objects and the three literals.  A number, or an escape [\uXXXX] of a
    character above U+00FF, is outside this fragment and is refused here.
    The decoder works on the text that remains to be read. *)
Definition is_ws (c : ascii) : bool :=
  let n := nat_of_ascii c in
  ((n =? 32) || (n =? 9) || (n =? 10) || (n =? 13))%nat.

Fixpoint skip_ws (s : string) : string :=
  match s with
  | EmptyString => EmptyString
  | String c s' => if is_ws c then skip_ws s' else s
  end.

Definition hexval (c : ascii) : option nat :=
  let n := nat_of_ascii c in
  if ((48 <=? n) && (n <=? 57))%nat then Some (n - 48)
  else if ((97 <=? n) && (n <=? 102))%nat then Some (n - 87)
  else if ((65 <=? n) && (n <=? 70))%nat then Some (n - 55)
  else None.

(** The four hexadecimal digits after [\u]. *)
Definition decode_uXXXX (s : string) : option (nat * string) :=
  match s with
  | String a (String b (String c (String d rest))) =>
      match hexval a, hexval b, hexval c, hexval d with
      | Some x3, Some x2, Some x1, Some x0 =>
          Some (((x3 * 16 + x2) * 16 + x1) * 16 + x0, rest)
      | _, _, _, _ => None
      end
  | _ => None
  end.

(** The character after a backslash other than [u]. *)
Definition unescape (c : ascii) : option ascii :=
  if Ascii.eqb c dquote then Some dquote
  else if Ascii.eqb c backslash then Some backslash
  else if Ascii.eqb c "/" then Some "/"%char
  else if Ascii.eqb c "b" then Some "008"%char
  else if Ascii.eqb c "f" then Some "012"%char
  else if Ascii.eqb c "n" then Some "010"%char
  else if Ascii.eqb c "r" then Some "013"%char
  else if Ascii.eqb c "t" then Some "009"%char
  else None.

(** [scanstring], entered after the opening quote, in strict mode: a raw
    control character is an error. *)
Fixpoint scanstring (fuel : nat) (s : string) : option (string * string) :=
  match fuel with
  | O => None
  | S fuel' =>
      match s with
      | EmptyString => None
      | String c rest =>
          if Ascii.eqb c dquote then Some ("", rest)
          else if Ascii.eqb c backslash then
            match rest with
            | EmptyString => None
            | String e rest' =>
                if Ascii.eqb e "u" then
                  match decode_uXXXX rest' with
                  | Some (uni, rest'') =>
                      if (uni <? 256)%nat then
                        match scanstring fuel' rest'' with
                        | Some (t, r) => Some (String (ascii_of_nat uni) t, r)
                        | None => None
                        end
                      else None
                  | None => None
                  end
                else
                  match unescape e with
                  | Some ch =>
                      match scanstring fuel' rest' with
                      | Some (t, r) => Some (String ch t, r)
                      | None => None
                      end
                  | None => None
                  end
            end
          else if (nat_of_ascii c <? 32)%nat then None
          else
            match scanstring fuel' rest with
            | Some (t, r) => Some (String c t, r)
            | None => None
            end
      end
  end.

(** [dict(pairs)]: a repeated key keeps its first place and its last value. *)
Definition dict_of_pairs {V} (pairs : list (string * V)) : PyDict.t V :=
  fold_left (fun d kv => PyDict.set (fst kv) (snd kv) d) pairs PyDict.empty.

Definition starts_with (p s : string) : option string :=
  if String.prefix p s then Some (String.substring (String.length p)
                                    (String.length s - String.length p) s)
  else None.

Fixpoint scan_once (fuel : nat) (s : string) : option (json * string) :=
  match fuel with
  | O => None
  | S fuel' =>
      match s with
      | EmptyString => None
      | String c rest =>
          if Ascii.eqb c dquote then
            match scanstring (S (String.length rest)) rest with
            | Some (t, r) => Some (JStr t, r)
            | None => None
            end
          else if Ascii.eqb c "{" then
            match skip_ws rest with
            | String c' r =>
                if Ascii.eqb c' "}" then Some (JDict [], r)
                else if Ascii.eqb c' dquote then object_items fuel' r []
                else None
            | EmptyString => None
            end
          else if Ascii.eqb c "[" then
            match skip_ws rest with
            | String c' r =>
                if Ascii.eqb c' "]" then Some (JList [], r)
                else array_items fuel' (String c' r) []
            | EmptyString => None
            end
          else
            match starts_with "null" s, starts_with "true" s, starts_with "false" s with
            | Some r, _, _ => Some (JNull, r)
            | _, Some r, _ => Some (JBool true, r)
            | _, _, Some r => Some (JBool false, r)
            | _, _, _ => None
            end
      end
  end

(** The loop of [JSONArray], entered at the first character of a value. *)
with array_items (fuel : nat) (s : string) (values : list json)
  : option (json * string) :=
  match fuel with
  | O => None
  | S fuel' =>
      match scan_once fuel' s with
      | Some (value, r) =>
          match skip_ws r with
          | String c r' =>
              if Ascii.eqb c "]" then Some (JList (values ++ [value]), r')
              else if Ascii.eqb c "," then
                array_items fuel' (skip_ws r') (values ++ [value])
              else None
          | EmptyString => None
          end
      | None => None
      end
  end

(** The loop of [JSONObject], entered after the opening quote of a key. *)
with object_items (fuel : nat) (s : string) (pairs : list (string * json))
  : option (json * string) :=
  match fuel with
  | O => None
  | S fuel' =>
      match scanstring (S (String.length s)) s with
      | Some (key, r) =>
          match skip_ws r with
          | String c r' =>
              if Ascii.eqb c ":" then
                match scan_once fuel' (skip_ws r') with
                | Some (value, r'') =>
                    match skip_ws r'' with
                    | String c' r3 =>
                        if Ascii.eqb c' "}"
                        then Some (JDict (dict_of_pairs (pairs ++ [(key, value)])), r3)
                        else if Ascii.eqb c' "," then
                          match skip_ws r3 with
                          | String q r4 =>
                              if Ascii.eqb q dquote
                              then object_items fuel' r4 (pairs ++ [(key, value)])
                              else None
                          | EmptyString => None
                          end
                        else None
                    | EmptyString => None
                    end
                | None => None
                end
              else None
          | EmptyString => None
          end
      | None => None
      end
  end.

(** [json.loads]: one value, white space around it, and nothing else. *)
Definition json_loads (s : string) : option json :=
  match scan_once (S (String.length s)) (skip_ws s) with
  | Some (v, r) =>
      match skip_ws r with
      | EmptyString => Some v
      | String _ _ => None
      end
  | None => None
  end.

(** Reading the parsed array back as records, field by field. *)
Definition json_field (d : list (string * json)) (k : string) : option string :=
  match PyDict.lookup d k with
  | Some (JStr s) => Some s
  | _ => None
  end.

Definition json_record (v : json) : option PincodeRecord :=
  match v with
  | JDict d =>
      match json_field d "pincode", json_field d "officeName",
            json_field d "district", json_field d "state" with
      | Some p, Some o, Some di, Some st =>
          if (length d =? 4)%nat then Some (mkRecord p o di st) else None
      | _, _, _, _ => None
      end
  | _ => None
  end.

Definition json_records (v : json) : option (list PincodeRecord) :=
  match v with
  | JList l => mapM json_record l
  | _ => None
  end.

(** Reading the parsed object of index.json back as an index, and that of
    bank_serviceability.json back as a bank map. *)
Definition json_index (v : json) : option PincodeIndex :=
  match v with
  | JDict d => mapM (fun kv => rec ← json_record (snd kv); Some (fst kv, rec)) d
  | _ => None
  end.

Definition json_entry (v : json) : option BankEntry :=
  match v with
  | JDict d =>
      match json_field d "bank", json_field d "status" with
      | Some b, Some s => if (length d =? 2)%nat then Some (mkEntry b s) else None
      | _, _ => None
      end
  | _ => None
  end.

Definition json_entries (v : json) : option (list BankEntry) :=
  match v with
  | JList l => mapM json_entry l
  | _ => None
  end.

Definition json_bank_map (v : json) : option BankMap :=
  match v with
  | JDict d => mapM (fun kv => es ← json_entries (snd kv); Some (fst kv, es)) d
  | _ => None
  end.

(** ** The process: command line, file system, output streams *)

(** An exception that leaves [main]: [SystemExit] carries the exit status,
    any other one ends the process with a traceback and status 1. *)
Inductive exn : Type :=
  | SystemExit (code : Z)
  | Exception (name : string).

Inductive outcome (A : Type) : Type :=
  | Ok (a : A)
  | Raise (e : exn).
Arguments Ok {A} a.
Arguments Raise {A} e.

(** What a library call gives: a value, or the name of the exception it
    raises (an [OSError], a [UnicodeDecodeError], a [csv.Error]). *)
Inductive result (A : Type) : Type :=
  | Return (a : A)
  | Fails (exc : string).
Arguments Return {A} a.
Arguments Fails {A} exc.

Definition of_result {A} (r : result A) : outcome A :=
  match r with
  | Return a => Ok a
  | Fails exc => Raise (Exception exc)
  end.

(** The library calls of the script: the file system, and the CSV reader.
    A call that raises may still have changed the file system.  The one
    law is that of [os.makedirs]: when it returns, its path is a
    directory. *)
Class Platform : Type := {
  FS : Type;
  (** [os.path.isdir] *)
  isdir : FS -> string -> bool;
  (** [os.makedirs(p, exist_ok=True)] *)
  os_makedirs : string -> FS -> result unit * FS;
  (** [open(p, newline='', encoding='utf-8')] and reading it to the end *)
  read_text : string -> FS -> result string;
  (** [open(p, 'w', encoding='utf-8')] and writing the text *)
  write_text : string -> string -> FS -> result unit * FS;
  (** [[row for row in csv.DictReader(f)]] on the text of [f] *)
  csv_rows : string -> result (list Row);
  makedirs_isdir : forall p fs fs',
    os_makedirs p fs = (Return tt, fs') -> isdir fs' p = true
}.

(** What the process does, in order. *)
Inductive event : Type :=
  | Makedirs (p : string)
  | OpenRead (p : string)
  | OpenWrite (p : string) (text : string)
  | Stdout (line : string)
  | Stderr (line : string).

Record World `{Platform} : Type := mkWorld {
  files : FS;
  trace : list event
}.

Section Process.
Context `{Platform}.

(** State and exceptions: the state survives an exception. *)
Definition M (A : Type) : Type := World -> outcome A * World.

Definition ret {A} (a : A) : M A := fun w => (Ok a, w).

Definition bind {A B} (m : M A) (k : A -> M B) : M B :=
  fun w =>
    match m w with
    | (Ok a, w') => k a w'
    | (Raise e, w') => (Raise e, w')
    end.

Definition raise {A} (e : exn) : M A := fun w => (Raise e, w).

Definition emit (e : event) : M unit :=
  fun w => (Ok tt, {| files := files w; trace := trace w ++ [e] |}).

Definition lift {A} (o : outcome A) : M A := fun w => (o, w).

Definition makedirs (p : string) : M unit :=
  fun w =>
    let '(r, fs') := os_makedirs p (files w) in
    (of_result r, {| files := fs'; trace := trace w ++ [Makedirs p] |}).

Definition open_read (p : string) : M string :=
  fun w =>
    (of_result (read_text p (files w)),
     {| files := files w; trace := trace w ++ [OpenRead p] |}).

Definition open_write (p text : string) : M unit :=
  fun w =>
    let '(r, fs') := write_text p text (files w) in
    (of_result r, {| files := fs'; trace := trace w ++ [OpenWrite p text] |}).

(** [print(a, b, ...)]: the items separated by one space *)
Definition print (items : list string) : M unit :=
  emit (Stdout (join " " items)).

End Process.

Notation "x <- m ;; k" := (bind m (fun x => k))
  (at level 100, m at next level, right associativity).
Notation "m ;; k" := (bind m (fun _ => k))
  (at level 100, right associativity).

(** The options given on the command line, as [argparse] collects them
    from a command line that asks for a conversion; how options are
    spelled, and the help option that [argparse] adds, are its own. *)
Record CommandLine : Type := mkCommandLine {
  opt_pincsv : option string;
  opt_bankcsv : option string;
  opt_outdir : option string
}.

(** The result of [parser.parse_args()] *)
Record Namespace : Type := mkNamespace {
  pincsv : string;
  bankcsv : pyval;
  outdir : string
}.

(** [os.path.join(a, b)] for a relative [b] *)
Definition ends_with_sep (a : string) : bool :=
  match String.get (String.length a - 1) a with
  | Some c => Ascii.eqb c "/"
  | None => false
  end.

Definition os_path_join (a b : string) : string :=
  if negb (nonempty a) || ends_with_sep a then a +:+ b else a +:+ "/" +:+ b.

(** [str(n)] for a length *)
Definition str_of_nat (n : nat) : string :=
  NilZero.string_of_uint (Nat.to_uint n).

(** The message of [parser.error] for a missing required option; [argparse]
    writes it on the error stream after the usage text. *)
Definition missing_pincsv : string :=
  "the following arguments are required: --pincsv".

Section Main.
Context `{Platform}.

(** The three [add_argument] calls: [--pincsv] is required, [--bankcsv]
    defaults to [None], [--outdir] to the directory mock-api. *)
Definition parse_args (cl : CommandLine) : M Namespace :=
  match opt_pincsv cl with
  | None =>
      emit (Stderr missing_pincsv) ;;
      raise (SystemExit 2)
  | Some p =>
      ret {| pincsv := p;
             bankcsv := match opt_bankcsv cl with
                        | Some b => PStr b
                        | None => PNone
                        end;
             outdir := default "mock-api" (opt_outdir cl) |}
  end.

Definition read_csv (path : string) : M (list Row) :=
  text <- open_read path ;;
  lift (of_result (csv_rows text)).

Definition main (cl : CommandLine) : M unit :=
  args <- parse_args cl ;;
  makedirs (outdir args) ;;
  print ["Reading pincodes CSV from"; pincsv args] ;;
  rows <- read_csv (pincsv args) ;;
  let records := fst (accumulate rows) in
  let index := snd (accumulate rows) in
  let pincodes_path := os_path_join (outdir args) "pincodes.json" in
  open_write pincodes_path (json_dump (records_json records)) ;;
  print ["Wrote"; pincodes_path; "("; str_of_nat (length records); "records)"] ;;
  let index_path := os_path_join (outdir args) "index.json" in
  open_write index_path (json_dump (index_json index)) ;;
  print ["Wrote"; index_path] ;;
  match bankcsv args with
  | PStr (String c s) =>
      let bankcsv := String c s in
      print ["Reading bank serviceability CSV from"; bankcsv] ;;
      bank_rows <- read_csv bankcsv ;;
      let bank_map := bank_accumulate bank_rows in
      let bank_path := os_path_join (outdir args) "bank_serviceability.json" in
      open_write bank_path (json_dump (bank_map_json bank_map)) ;;
      print ["Wrote"; bank_path]
  | _ => ret tt
  end ;;
  print ["Done."].

(** The process: its exit status and the world it leaves.  An exception
    that nothing catches is reported on the error stream, here by its
    name. *)
Definition run (cl : CommandLine) (w : World) : Z * World :=
  match main cl w with
  | (Ok tt, w') => (0%Z, w')
  | (Raise (SystemExit code), w') => (code, w')
  | (Raise (Exception name), w') =>
      (1%Z, {| files := files w'; trace := trace w' ++ [Stderr name] |})
  end.

Definition is_fs_event (e : event) : bool :=
  match e with
  | Makedirs _ | OpenRead _ | OpenWrite _ _ => true
  | Stdout _ | Stderr _ => false
  end.

Definition is_write (e : event) : bool :=
  match e with
  | OpenWrite _ _ => true
  | _ => false
  end.

End Main.

(** ** A small platform

    A file system as a finite map from path to node, and a CSV reader for
    tables without quoting.  It shows that the law of [Platform] can be
    met, and runs the script on concrete inputs. *)
Module Simple.

Inductive node : Type :=
  | Dir
  | File (text : string).

Definition is_file_at (fs : gmap string node) (p : string) : bool :=
  match fs !! p with
  | Some (File _) => true
  | _ => false
  end.

Definition is_dir_at (fs : gmap string node) (p : string) : bool :=
  match fs !! p with
  | Some Dir => true
  | _ => false
  end.

(** The proper prefixes of [pre ++ p] that end before a separator of [p]. *)
Fixpoint parents (pre p : string) : list string :=
  match p with
  | EmptyString => []
  | String c p' =>
      (if Ascii.eqb c "/" && nonempty pre then [pre] else [])
      ++ parents (pre +:+ String c "") p'
  end.

Definition mkdirs (ds : list string) (fs : gmap string node) : gmap string node :=
  foldr (fun d m => <[d := Dir]> m) fs ds.

Definition fs_makedirs (p : string) (fs : gmap string node)
  : result unit * gmap string node :=
  if negb (nonempty p) then (Fails "FileNotFoundError", fs)
  else if existsb (is_file_at fs) (parents "" p)
  then (Fails "NotADirectoryError", fs)
  else if is_file_at fs p then (Fails "FileExistsError", fs)
  else (Return tt, mkdirs (parents "" p ++ [p]) fs).

Definition fs_read (p : string) (fs : gmap string node) : result string :=
  match fs !! p with
  | Some (File text) => Return text
  | Some Dir => Fails "IsADirectoryError"
  | None => Fails "FileNotFoundError"
  end.

Definition fs_write (p text : string) (fs : gmap string node)
  : result unit * gmap string node :=
  if is_dir_at fs p then (Fails "IsADirectoryError", fs)
  else if forallb (is_dir_at fs) (parents "" p)
  then (Return tt, <[p := File text]> fs)
  else (Fails "FileNotFoundError", fs).

(** [s.split(sep)] *)
Fixpoint split (sep : ascii) (s : string) : list string :=
  match s with
  | EmptyString => [""]
  | String c s' =>
      if Ascii.eqb c sep then "" :: split sep s'
      else match split sep s' with
           | [] => [String c ""]
           | w :: ws => String c w :: ws
           end
  end.

(** [dict(zip(header, cells))], a missing cell being [None] *)
Fixpoint zip_row (header cells : list string) : Row :=
  match header, cells with
  | [], _ => ∅
  | h :: hs, [] => <[h := PNone]> (zip_row hs [])
  | h :: hs, c :: cs => <[h := PStr c]> (zip_row hs cs)
  end.

Definition csv (text : string) : result (list Row) :=
  match split "010" text with
  | [] => Return []
  | header :: lines =>
      Return (map (fun l => zip_row (split "," header) (split "," l))
            (List.filter nonempty lines))
  end.

Lemma mkdirs_lookup (ds : list string) (fs : gmap string node) (q : string) :
  mkdirs ds fs !! q = if decide (q ∈ ds) then Some Dir else fs !! q.
Proof.
  unfold mkdirs. induction ds as [|d ds IH]; cbn [foldr].
  - rewrite decide_False; [reflexivity | apply not_elem_of_nil].
  - destruct (decide (d = q)) as [->|Hne].
    + rewrite lookup_insert_eq, decide_True; [reflexivity | left].
    + rewrite lookup_insert_ne by exact Hne. rewrite IH.
      destruct (decide (q ∈ ds)) as [Hin|Hin].
      * rewrite decide_True; [reflexivity | right; exact Hin].
      * rewrite decide_False; [reflexivity|].
        intros Hc. apply elem_of_cons in Hc as [->|Hc]; [congruence | tauto].
Qed.

Lemma fs_makedirs_isdir (p : string) (fs fs' : gmap string node) :
  fs_makedirs p fs = (Return tt, fs') -> is_dir_at fs' p = true.
Proof.
  unfold fs_makedirs. destruct (negb (nonempty p)); [discriminate|].
  destruct (existsb _ _); [discriminate|].
  destruct (is_file_at fs p); [discriminate|].
  intros [= <-]. unfold is_dir_at. rewrite mkdirs_lookup, decide_True.
  - reflexivity.
  - apply elem_of_app. right. left.
Qed.

#[export] Instance platform : Platform := {|
  FS := gmap string node;
  isdir := is_dir_at;
  os_makedirs := fs_makedirs;
  read_text := fs_read;
  write_text := fs_write;
  csv_rows := csv;
  makedirs_isdir := fs_makedirs_isdir
|}.

End Simple.

(** * server/decrypt_pdf.py: removing the password of a PDF *)

(** What the [with pikepdf.open(...) as pdf: pdf.save(...)] block can
    raise under [Exception]: [pikepdf.PasswordError], or another
    exception, with its [str(e)]. *)
Inductive pdf_exception : Type :=
  | PasswordError
  | OtherException (message : string).

(** The library calls of the script: [os.path.exists], and the block that
    opens the input with the password and saves it to the output. *)
Class PdfPlatform : Type := {
  Disk : Type;
  os_path_exists : Disk -> string -> bool;
  open_and_save : string -> string -> string -> Disk -> option pdf_exception * Disk
}.

Inductive pdf_event : Type :=
  | Exists (path : string)
  | OpenSave (input_path password output_path : string)
  | Printed (line : string).

Record PdfWorld `{PdfPlatform} : Type := mkPdfWorld {
  disk : Disk;
  calls : list pdf_event
}.

Definition usage_line : string :=
  "Usage: python decrypt_pdf.py <input.pdf> <password> <output.pdf>".

Section DecryptPdf.
Context `{PdfPlatform}.

Definition pdf_print (line : string) (w : PdfWorld) : PdfWorld :=
  {| disk := disk w; calls := calls w ++ [Printed line] |}.

Definition decrypt_pdf (input_path password output_path : string) (w : PdfWorld)
  : bool * PdfWorld :=
  let '(raised, d) := open_and_save input_path password output_path (disk w) in
  let w1 := {| disk := d;
               calls := calls w ++ [OpenSave input_path password output_path] |} in
  match raised with
  | None => (true, pdf_print "SUCCESS" w1)
  | Some PasswordError => (false, pdf_print "ERROR: Incorrect password" w1)
  | Some (OtherException message) => (false, pdf_print ("ERROR: " +:+ message) w1)
  end.

(** The script run as a program with [sys.argv] and with [pikepdf]
    installed or not: its exit status and the world it leaves. *)
Definition decrypt_main (installed : bool) (argv : list string) (w : PdfWorld)
  : Z * PdfWorld :=
  if negb installed then
    (1%Z, pdf_print "ERROR: pikepdf not installed. Install with: pip install pikepdf" w)
  else
    match argv with
    | [_; input_path; password; output_path] =>
        let w1 := {| disk := disk w; calls := calls w ++ [Exists input_path] |} in
        if negb (os_path_exists (disk w) input_path) then
          (1%Z, pdf_print ("ERROR: Input file not found: " +:+ input_path) w1)
        else
          let '(success, w2) := decrypt_pdf input_path password output_path w1 in
          (if success then 0%Z else 1%Z, w2)
    | _ => (1%Z, pdf_print usage_line w)
    end.

Definition is_print (e : pdf_event) : bool :=
  match e with
  | Printed _ => true
  | _ => false
  end.

End DecryptPdf.
(** * Properties *)

(** ** Strings *)

Lemma nonempty_false (s : string) : nonempty s = false <-> s = "".
Proof. destruct s; simpl; split; congruence. Qed.

Lemma nonempty_true (s : string) : nonempty s = true <-> s <> "".
Proof. destruct s; simpl; split; congruence. Qed.

Lemma lstrip_all_space (s : string) : all_space s = true -> lstrip s = "".
Proof.
  induction s as [|c s IH]; simpl; [reflexivity|].
  destruct (isspace c); simpl; [exact IH | discriminate].
Qed.

Lemma rstrip_empty (s : string) : rstrip s = "" <-> all_space s = true.
Proof.
  induction s as [|c s IH]; simpl; [tauto|].
  destruct (rstrip s) eqn:E.
  - destruct (isspace c); simpl.
    + split; [intros _; apply IH; reflexivity | reflexivity].
    + split; discriminate.
  - split; [discriminate|].
    intros H. apply andb_prop in H as [_ H]. apply IH in H. discriminate.
Qed.

Lemma all_space_lstrip (s : string) : all_space (lstrip s) = all_space s.
Proof.
  induction s as [|c s IH]; simpl; [reflexivity|].
  destruct (isspace c) eqn:E; simpl; [exact IH | rewrite E; reflexivity].
Qed.

(** [s.strip()] is empty exactly when [s] is empty or all white space. *)
Lemma strip_empty (s : string) : strip s = "" <-> all_space s = true.
Proof. unfold strip. rewrite rstrip_empty, all_space_lstrip. tauto. Qed.

(** ** The chains of [or] select the first non-empty cell *)

Lemma or_str_first_nonempty (row : Row) (ks : list string) (acc : pyval) :
  or_str (fold_left (fun a k => a `or` get row k) ks acc) ""
  = if truthy acc then or_str acc ""
    else default "" (first_nonempty row ks).
Proof.
  revert acc. induction ks as [|k ks IH]; intros acc; simpl.
  - destruct acc as [|[|]]; reflexivity.
  - rewrite IH. unfold py_or.
    destruct (truthy acc) eqn:Ha; [rewrite Ha; reflexivity|].
    destruct (get row k) as [|[|c s]]; simpl; reflexivity.
Qed.

Lemma chain_first_nonempty (row : Row) (k : string) (ks : list string) :
  or_str (fold_left (fun a k' => a `or` get row k') ks (get row k)) ""
  = default "" (first_nonempty row (k :: ks)).
Proof.
  rewrite or_str_first_nonempty. simpl.
  destruct (get row k) as [|[|c s]]; reflexivity.
Qed.

Lemma officeName_first_nonempty (row : Row) :
  officeName (normalize_record row)
  = strip (default "" (first_nonempty row officeName_variants)).
Proof. unfold officeName_variants. rewrite <- chain_first_nonempty. reflexivity. Qed.

Lemma district_first_nonempty (row : Row) :
  district (normalize_record row)
  = strip (default "" (first_nonempty row district_variants)).
Proof. unfold district_variants. rewrite <- chain_first_nonempty. reflexivity. Qed.

Lemma state_first_nonempty (row : Row) :
  state (normalize_record row)
  = strip (default "" (first_nonempty row state_variants)).
Proof. unfold state_variants. rewrite <- chain_first_nonempty. reflexivity. Qed.

(** The pincode chain has no final [or '']: with no non-empty cell its
    value is the cell of the last variant, [PinCode], as it is. *)
Lemma pincode_first_nonempty (row : Row) :
  pincode (normalize_record row)
  = match first_nonempty row pincode_variants with
    | Some c => strip c
    | None => strip (py_str (get row "PinCode"))
    end.
Proof.
  unfold normalize_record, pincode_variants, py_or; simpl.
  destruct (get row "pincode") as [|[|]]; simpl; try reflexivity;
  destruct (get row "PINCODE") as [|[|]]; simpl; try reflexivity;
  destruct (get row "Pincode") as [|[|]]; simpl; try reflexivity;
  destruct (get row "PinCode") as [|[|]]; simpl; reflexivity.
Qed.

Lemma bank_pincode_first_nonempty (b : Row) :
  bank_pincode b = strip (default "" (first_nonempty b pincode_variants)).
Proof. unfold pincode_variants. rewrite <- chain_first_nonempty. reflexivity. Qed.

Lemma bank_entry_first_nonempty (b : Row) :
  bank_entry b
  = {| bank := strip (default "" (first_nonempty b bank_variants));
       status := strip (default "" (first_nonempty b status_variants)) |}.
Proof.
  unfold bank_variants, status_variants.
  rewrite <- !chain_first_nonempty. reflexivity.
Qed.

(** ** Dictionaries *)

Section PyDictFacts.
Context {V : Type}.
Implicit Types (d : PyDict.t V) (k : string) (v : V).

Lemma lookup_set_eq d k v : PyDict.lookup (PyDict.set k v d) k = Some v.
Proof.
  induction d as [|[k' v'] d IH]; simpl.
  - rewrite String.eqb_refl. reflexivity.
  - destruct (String.eqb k k') eqn:E; simpl.
    + rewrite String.eqb_refl. reflexivity.
    + rewrite E. exact IH.
Qed.

Lemma lookup_set_ne d k k' v :
  k <> k' -> PyDict.lookup (PyDict.set k v d) k' = PyDict.lookup d k'.
Proof.
  intros Hne. induction d as [|[k0 v0] d IH]; simpl.
  - destruct (String.eqb_spec k' k); congruence.
  - destruct (String.eqb_spec k k0) as [->|Hk]; simpl.
    + destruct (String.eqb_spec k' k0); congruence.
    + rewrite IH. reflexivity.
Qed.

Lemma lookup_set d k k' v :
  PyDict.lookup (PyDict.set k v d) k'
  = if String.eqb k k' then Some v else PyDict.lookup d k'.
Proof.
  destruct (String.eqb_spec k k') as [->|Hne].
  - apply lookup_set_eq.
  - apply lookup_set_ne, Hne.
Qed.

(** Assigning to a key keeps the order of the keys; a new key goes last. *)
Lemma keys_set d k v :
  PyDict.keys (PyDict.set k v d)
  = if PyDict.lookup d k is Some _ then PyDict.keys d else PyDict.keys d ++ [k].
Proof.
  induction d as [|[k' v'] d IH]; simpl; [reflexivity|].
  destruct (String.eqb_spec k k') as [->|Hne]; simpl; [reflexivity|].
  rewrite IH. destruct (PyDict.lookup d k); reflexivity.
Qed.

End PyDictFacts.

(** ** The accumulation loop *)

Lemma accumulate_snoc (rows : list Row) (r : Row) :
  accumulate (rows ++ [r]) = acc_step (accumulate rows) r.
Proof. unfold accumulate. rewrite fold_left_app. reflexivity. Qed.

Lemma acc_step_kept (st : list PincodeRecord * PincodeIndex) (r : Row) :
  acc_step st r
  = if kept r
    then (fst st ++ [normalize_record r],
          PyDict.set (pincode (normalize_record r)) (normalize_record r) (snd st))
    else st.
Proof. unfold acc_step, kept. destruct (nonempty _); reflexivity. Qed.

(** The array holds the normalized records of the kept rows, in input
    order. *)
Lemma records_filtered (rows : list Row) :
  fst (accumulate rows) = map normalize_record (List.filter kept rows).
Proof.
  induction rows as [|r rows IH] using rev_ind; [reflexivity|].
  rewrite accumulate_snoc, acc_step_kept, List.filter_app, map_app.
  cbn [List.filter]. destruct (kept r); cbn [fst map].
  - rewrite IH. reflexivity.
  - rewrite app_nil_r. exact IH.
Qed.

(** The index maps a key to the last record of the array with that
    pincode. *)
Lemma index_last (rows : list Row) (k : string) :
  PyDict.lookup (snd (accumulate rows)) k
  = last (List.filter (has_pincode k) (fst (accumulate rows))).
Proof.
  induction rows as [|r rows IH] using rev_ind; [reflexivity|].
  rewrite accumulate_snoc, acc_step_kept.
  destruct (kept r); cbn [fst snd]; [|exact IH].
  rewrite lookup_set, List.filter_app. cbn [List.filter]. unfold has_pincode at 2.
  destruct (String.eqb (pincode (normalize_record r)) k).
  - rewrite last_snoc. reflexivity.
  - rewrite app_nil_r. exact IH.
Qed.

Lemma filter_map_comm {A B} (f : A -> B) (p : B -> bool) (l : list A) :
  List.filter p (map f l) = map f (List.filter (fun x => p (f x)) l).
Proof.
  induction l as [|x l IH]; simpl; [reflexivity|].
  destruct (p (f x)); simpl; rewrite IH; reflexivity.
Qed.

Lemma filter_filter {A} (p q : A -> bool) (l : list A) :
  List.filter p (List.filter q l) = List.filter (fun x => q x && p x) l.
Proof.
  induction l as [|x l IH]; simpl; [reflexivity|].
  destruct (q x); simpl; [destruct (p x)|]; rewrite IH; reflexivity.
Qed.

Lemma records_with (rows : list Row) (k : string) :
  List.filter (has_pincode k) (fst (accumulate rows))
  = map normalize_record (rows_with k rows).
Proof. rewrite records_filtered, filter_map_comm, filter_filter. reflexivity. Qed.

Lemma last_map {A B} (f : A -> B) (l : list A) : last (map f l) = f <$> last l.
Proof.
  induction l as [|x l IH] using rev_ind; [reflexivity|].
  rewrite map_app; simpl. rewrite !last_snoc. reflexivity.
Qed.

Lemma lookup_keys {V} (d : PyDict.t V) (k : string) :
  k ∈ PyDict.keys d <-> is_Some (PyDict.lookup d k).
Proof.
  induction d as [|[k' v] d IH]; simpl.
  - split; [intros Hin; inversion Hin | intros [x Hx]; discriminate].
  - destruct (String.eqb_spec k k') as [->|Hne].
    + split; [eauto | intros _; left].
    + rewrite elem_of_cons, IH. split; [intros [?|?]; [congruence|assumption] | auto].
Qed.

(** ** The bank loop *)

Definition nonnil {A} (l : list A) : option (list A) :=
  match l with
  | [] => None
  | _ :: _ => Some l
  end.

(** The bank rows that are kept under the key [k]. *)
Definition bank_rows_with (k : string) (bank_rows : list Row) : list Row :=
  List.filter (fun b => bank_kept b && String.eqb (bank_pincode b) k) bank_rows.

Lemma bank_step_lookup (m : BankMap) (b : Row) (k : string) :
  PyDict.lookup (bank_step m b) k
  = if bank_kept b && String.eqb (bank_pincode b) k
    then Some (default [] (PyDict.lookup m k) ++ [bank_entry b])
    else PyDict.lookup m k.
Proof.
  unfold bank_step, bank_kept, PyDict.setdefault.
  destruct (nonempty (bank_pincode b)); cbn [negb andb]; [|reflexivity].
  destruct (PyDict.lookup m (bank_pincode b)) as [l|] eqn:Hl;
    rewrite !lookup_set;
    destruct (String.eqb_spec (bank_pincode b) k) as [<-|Hne];
    try rewrite Hl; reflexivity.
Qed.

Lemma bank_accumulate_snoc (bank_rows : list Row) (b : Row) :
  bank_accumulate (bank_rows ++ [b]) = bank_step (bank_accumulate bank_rows) b.
Proof. unfold bank_accumulate. rewrite fold_left_app. reflexivity. Qed.

Lemma bank_accumulate_lookup (bank_rows : list Row) (k : string) :
  PyDict.lookup (bank_accumulate bank_rows) k
  = nonnil (map bank_entry (bank_rows_with k bank_rows)).
Proof.
  induction bank_rows as [|b rows IH] using rev_ind; [reflexivity|].
  rewrite bank_accumulate_snoc, bank_step_lookup, IH.
  unfold bank_rows_with. rewrite List.filter_app, map_app. cbn [List.filter].
  destruct (bank_kept b && String.eqb (bank_pincode b) k); cbn [map].
  - destruct (map bank_entry _); reflexivity.
  - rewrite app_nil_r. reflexivity.
Qed.

(** ** Which rows the accumulation loop drops *)

(** A row is dropped when its first non-empty pincode cell is all white
    space, or when no pincode cell is non-empty and the column [PinCode]
    is there with an empty cell.  A row with no non-empty pincode cell and
    no [PinCode] cell is kept, under the pincode [None]. *)
Lemma dropped_iff (r : Row) :
  kept r = false <->
  match first_nonempty r pincode_variants with
  | Some c => all_space c = true
  | None => get r "PinCode" = PStr ""
  end.
Proof.
  unfold kept. rewrite nonempty_false, pincode_first_nonempty.
  destruct (first_nonempty r pincode_variants) as [c|] eqn:Hf.
  - apply strip_empty.
  - destruct (get r "PinCode") as [|[|a s]] eqn:Hg.
    + split; [intros Hs; vm_compute in Hs; discriminate | discriminate].
    + split; reflexivity.
    + exfalso. unfold pincode_variants in Hf. simpl in Hf. rewrite Hg in Hf.
      destruct (get r "pincode") as [|[|]]; try discriminate;
      destruct (get r "PINCODE") as [|[|]]; try discriminate;
      destruct (get r "Pincode") as [|[|]]; discriminate.
Qed.

(** A first pincode cell of white space hides a later cell with a value:
    the row is dropped. *)
Example blank_first_cell_row_is_dropped :
  kept {[ "pincode" := PStr " "; "PINCODE" := PStr "110001" ]} = false.
Proof. vm_compute. reflexivity. Qed.

(** * The claims about the two loops *)

(** C1 (the code departs from the claim): a row whose pincode cell is
    empty, and a row with no pincode column at all, should be dropped.  The
    chain of [or] for the pincode has no final empty string, so its value
    is [None], [str(None)] is the four letters None, and both rows are
    kept: of two such rows both are in the array, and the index has the key
    None. *)
Theorem C1_empty_pincode_row_is_kept :
  let r1 : Row := {[ "pincode" := PStr ""; "district" := PStr "Foo" ]} in
  let r2 : Row := {[ "district" := PStr "Bar" ]} in
  first_nonempty r1 pincode_variants = None /\
  first_nonempty r2 pincode_variants = None /\
  normalize_record r1 = mkRecord "None" "" "Foo" "" /\
  normalize_record r2 = mkRecord "None" "" "Bar" "" /\
  accumulate [r1; r2]
  = ([mkRecord "None" "" "Foo" ""; mkRecord "None" "" "Bar" ""],
     [("None", mkRecord "None" "" "Bar" "")]).
Proof. vm_compute. repeat split; reflexivity. Qed.

(** C2 as stated fails: of two rows with the same pincode the record of
    the first is not the value under its key in the index; and a row with
    an empty pincode cell has the non-empty normalized pincode None, which
    is the trimmed value of no cell. *)
Lemma C2_counterexample :
  let r1 : Row := {[ "pincode" := PStr "110001"; "district" := PStr "A" ]} in
  let r2 : Row := {[ "pincode" := PStr "110001"; "district" := PStr "B" ]} in
  let r3 : Row := {[ "pincode" := PStr "" ]} in
  (r1 ∈ [r1; r2] /\ kept r1 = true /\
   PyDict.lookup (snd (accumulate [r1; r2])) (pincode (normalize_record r1))
   <> Some (normalize_record r1)) /\
  (kept r3 = true /\ first_nonempty r3 pincode_variants = None).
Proof.
  cbv zeta. split; [split; [left | split] | split].
  - vm_compute. reflexivity.
  - vm_compute. discriminate.
  - vm_compute. reflexivity.
  - vm_compute. reflexivity.
Qed.

Lemma rows_with_split (k : string) (before after : list Row) (r : Row) :
  kept r = true -> pincode (normalize_record r) = k ->
  Forall (fun r' => pincode (normalize_record r') <> k) after ->
  rows_with k (before ++ r :: after) = rows_with k before ++ [r].
Proof.
  intros Hk Hp Hafter. unfold rows_with.
  rewrite List.filter_app. cbn [List.filter]. unfold has_pincode at 2.
  rewrite Hk, Hp, String.eqb_refl. cbn [andb]. f_equal. f_equal.
  induction Hafter as [|r' after Hr' _ IH]; [reflexivity|].
  cbn [List.filter]. unfold has_pincode at 1.
  apply String.eqb_neq in Hr'. rewrite Hr', andb_false_r. exact IH.
Qed.

(** C2 (amended): for every row of the table that has a non-empty pincode
    cell whose trimmed value is not empty, each field of its record is the
    trimmed first non-empty cell among the field's column names (the empty
    string for officeName, district and state when there is none); the
    array is the records of the kept rows in input order and holds this
    record; and the index maps its pincode to the record of the last kept
    row with that pincode, which is this record when no later row has the
    same pincode. *)
Theorem C2_fields_and_outputs (rows : list Row) (r : Row) (c : string) :
  r ∈ rows ->
  first_nonempty r pincode_variants = Some c ->
  strip c <> "" ->
  let rec := normalize_record r in
  pincode rec = strip c /\
  officeName rec = strip (default "" (first_nonempty r officeName_variants)) /\
  district rec = strip (default "" (first_nonempty r district_variants)) /\
  state rec = strip (default "" (first_nonempty r state_variants)) /\
  fst (accumulate rows) = map normalize_record (List.filter kept rows) /\
  rec ∈ fst (accumulate rows) /\
  PyDict.lookup (snd (accumulate rows)) (pincode rec)
  = normalize_record <$> last (rows_with (pincode rec) rows) /\
  (forall before after,
      rows = before ++ r :: after ->
      Forall (fun r' => pincode (normalize_record r') <> pincode rec) after ->
      PyDict.lookup (snd (accumulate rows)) (pincode rec) = Some rec).
Proof.
  intros Hin Hc Hne rec.
  assert (pincode rec = strip c) as Hp.
  { unfold rec. rewrite pincode_first_nonempty, Hc. reflexivity. }
  assert (kept r = true) as Hk.
  { unfold kept. fold rec. rewrite Hp. apply nonempty_true, Hne. }
  assert (PyDict.lookup (snd (accumulate rows)) (pincode rec)
          = normalize_record <$> last (rows_with (pincode rec) rows)) as Hidx.
  { rewrite index_last, records_with, last_map. reflexivity. }
  repeat split.
  - exact Hp.
  - apply officeName_first_nonempty.
  - apply district_first_nonempty.
  - apply state_first_nonempty.
  - apply records_filtered.
  - rewrite records_filtered. apply list_elem_of_fmap. exists r. split; [reflexivity|].
    apply list_elem_of_In, filter_In. split; [apply list_elem_of_In, Hin | exact Hk].
  - exact Hidx.
  - intros before after -> Hafter. rewrite Hidx. unfold rec in *.
    rewrite (rows_with_split _ before after r Hk eq_refl Hafter), last_snoc.
    reflexivity.
Qed.

Lemma C2_fields_and_outputs_witness :
  let r1 : Row := {[ "Pincode" := PStr " 110001 "; "STATE" := PStr "Delhi" ]} in
  let r2 : Row := {[ "pincode" := PStr "400001"; "office" := PStr "GPO " ]} in
  PyDict.lookup (snd (accumulate [r1; r2])) (pincode (normalize_record r1))
  = Some (normalize_record r1).
Proof.
  intros r1 r2.
  refine (proj2 (proj2 (proj2 (proj2 (proj2 (proj2 (proj2
    (C2_fields_and_outputs [r1; r2] r1 " 110001 " _ _ _)))))))
    [] [r2] eq_refl _).
  - left.
  - vm_compute. reflexivity.
  - vm_compute. discriminate.
  - repeat constructor. vm_compute. discriminate.
Defined.

(** C3: the index maps a pincode to the normalized record of the last kept
    row with that pincode, as it is; the array keeps the records of all the
    kept rows with that pincode, in input order. *)
Theorem C3_last_row_wins (rows : list Row) (k : string) :
  PyDict.lookup (snd (accumulate rows)) k
  = normalize_record <$> last (rows_with k rows) /\
  List.filter (has_pincode k) (fst (accumulate rows))
  = map normalize_record (rows_with k rows) /\
  fst (accumulate rows) = map normalize_record (List.filter kept rows).
Proof.
  split; [|split].
  - rewrite index_last, records_with, last_map. reflexivity.
  - apply records_with.
  - apply records_filtered.
Qed.

(** The example of the specification for C3. *)
Example last_row_wins_110001 :
  let rows : list Row :=
    [ {[ "pincode" := PStr "110001"; "district" := PStr "A" ]};
      {[ "pincode" := PStr "110001"; "district" := PStr "B" ]} ] in
  district <$> PyDict.lookup (snd (accumulate rows)) "110001" = Some "B" /\
  map district (fst (accumulate rows)) = ["A"; "B"].
Proof. vm_compute. split; reflexivity. Qed.

(** C4: in the bank loop the pincode, bank and status of a row are the
    trimmed first non-empty cells among their column names, the empty
    string when there is none; a row with an empty pincode is dropped; and
    the map has, under every key, the entries of the kept rows with that
    pincode, in input order, one per row whatever the bank names; a key
    with no row is absent. *)
Theorem C4_bank_entries_in_order (bank_rows : list Row) (k : string) :
  (forall b,
      bank_pincode b = strip (default "" (first_nonempty b pincode_variants)) /\
      bank_entry b
      = {| bank := strip (default "" (first_nonempty b bank_variants));
           status := strip (default "" (first_nonempty b status_variants)) |} /\
      (bank_pincode b = "" -> forall m, bank_step m b = m)) /\
  PyDict.lookup (bank_accumulate bank_rows) k
  = nonnil (map bank_entry (bank_rows_with k bank_rows)).
Proof.
  split.
  - intros b. split; [|split].
    + apply bank_pincode_first_nonempty.
    + apply bank_entry_first_nonempty.
    + intros Hb m. unfold bank_step. rewrite Hb. reflexivity.
  - apply bank_accumulate_lookup.
Qed.

(** The example of the specification for C4. *)
Example bank_entries_110001 :
  let bank_rows : list Row :=
    [ {[ "pincode" := PStr "110001"; "bank" := PStr "X"; "status" := PStr "serviceable" ]};
      {[ "pincode" := PStr "110001"; "bank" := PStr "Y"; "status" := PStr "partial" ]} ] in
  PyDict.lookup (bank_accumulate bank_rows) "110001"
  = Some [mkEntry "X" "serviceable"; mkEntry "Y" "partial"].
Proof. vm_compute. reflexivity. Qed.

(** The invariant of the accumulation loop: every key of the index is the
    pincode of its record, and that record is the last record of the array
    with this pincode. *)
Definition index_consistent (st : list PincodeRecord * PincodeIndex) : Prop :=
  forall k, k ∈ PyDict.keys (snd st) ->
    exists rec,
      PyDict.lookup (snd st) k = Some rec /\
      pincode rec = k /\
      rec ∈ fst st /\
      last (List.filter (has_pincode k) (fst st)) = Some rec.

(** C9: the invariant holds after every iteration of the loop, that is for
    the state reached on every prefix of the rows, the whole table
    included. *)
Theorem C9_index_consistent (rows : list Row) (n : nat) :
  index_consistent (accumulate (take n rows)).
Proof.
  intros k Hk. apply lookup_keys in Hk as [rec Hrec]. exists rec.
  pose proof Hrec as Hlast. rewrite index_last in Hlast.
  assert (rec ∈ List.filter (has_pincode k) (fst (accumulate (take n rows)))) as Hin.
  { apply last_Some in Hlast as [l' ->]. apply elem_of_app. right. left. }
  apply list_elem_of_In, filter_In in Hin as [Hin Hpin].
  repeat split.
  - exact Hrec.
  - apply String.eqb_eq, Hpin.
  - apply list_elem_of_In, Hin.
  - exact Hlast.
Qed.

(** * [json.dump] and [json.load] *)

Lemma app_cons (c : ascii) (s t : string) : String c s +:+ t = String c (s +:+ t).
Proof. reflexivity. Qed.

Lemma app_empty_l (t : string) : "" +:+ t = t.
Proof. reflexivity. Qed.

Lemma app_assoc_s (s t u : string) : (s +:+ t) +:+ u = s +:+ (t +:+ u).
Proof. induction s as [|c s IH]; [reflexivity|]. rewrite !app_cons, IH. reflexivity. Qed.

Lemma length_app_s (s t : string) :
  String.length (s +:+ t) = String.length s + String.length t.
Proof. induction s as [|c s IH]; [reflexivity|]. rewrite app_cons. simpl. rewrite IH. reflexivity. Qed.

(** ** Strings *)

(** One escaped character is read back as the character. *)
Lemma scanstring_escape_char (c : ascii) (fuel : nat) (t : string) :
  scanstring (S fuel) (escape_char c +:+ t)
  = match scanstring fuel t with
    | Some (u, r) => Some (String c u, r)
    | None => None
    end.
Proof.
  destruct c as [[] [] [] [] [] [] [] []]; reflexivity.
Qed.

Lemma scanstring_escape (s : string) (fuel : nat) (rest : string) :
  String.length s < fuel ->
  scanstring fuel (escape s +:+ String dquote rest) = Some (s, rest).
Proof.
  revert fuel. induction s as [|c s IH]; intros fuel Hlen.
  - destruct fuel as [|fuel]; [inversion Hlen | reflexivity].
  - destruct fuel as [|fuel]; [inversion Hlen|].
    cbn [escape]. rewrite app_assoc_s, scanstring_escape_char, IH; [reflexivity|].
    simpl in Hlen. lia.
Qed.

Lemma escape_char_length (c : ascii) : 1 <= String.length (escape_char c).
Proof. destruct c as [[] [] [] [] [] [] [] []]; vm_compute; lia. Qed.

Lemma escape_length (s : string) : String.length s <= String.length (escape s).
Proof.
  induction s as [|c s IH]; [reflexivity|].
  cbn [escape]. rewrite length_app_s. pose proof (escape_char_length c). simpl. lia.
Qed.

(** ** Values *)

(** Induction over a value and, with it, over the values inside it. *)
Lemma json_nested_ind (P : json -> Prop) :
  P JNull ->
  (forall b, P (JBool b)) ->
  (forall s, P (JStr s)) ->
  (forall l, Forall P l -> P (JList l)) ->
  (forall d, Forall (fun kv => P (snd kv)) d -> P (JDict d)) ->
  forall v, P v.
Proof.
  intros Hnull Hbool Hstr Hlist Hdict.
  fix IH 1. intros [ |b|s|l|d].
  - exact Hnull.
  - apply Hbool.
  - apply Hstr.
  - apply Hlist. induction l as [|x l IHl]; constructor; [apply IH | exact IHl].
  - apply Hdict. induction d as [|[k x] d IHd]; constructor; [apply IH | exact IHd].
Qed.

(** The keys of every dictionary inside the value are distinct, as they are
    in a Python [dict]. *)
Fixpoint wf_json (v : json) : bool :=
  match v with
  | JList l => forallb wf_json l
  | JDict d =>
      bool_decide (NoDup (map fst d)) && forallb (fun kv => wf_json (snd kv)) d
  | _ => true
  end.

(** The number of calls the decoder makes on the text of a value. *)
Fixpoint jsize (v : json) : nat :=
  match v with
  | JList l => S (list_sum (map (fun x => S (jsize x)) l))
  | JDict d => S (list_sum (map (fun kv => S (jsize (snd kv))) d))
  | _ => 1
  end.

Definition item_sep (lvl : nat) : string := "," +:+ newline_indent lvl.

Definition enc_pair (lvl : nat) (kv : string * json) : string :=
  encode_basestring (fst kv) +:+ ": " +:+ iterencode lvl (snd kv).

Lemma iterencode_list (lvl : nat) (v : json) (l : list json) :
  iterencode lvl (JList (v :: l))
  = "[" +:+ newline_indent (S lvl)
    +:+ join (item_sep (S lvl)) (map (iterencode (S lvl)) (v :: l))
    +:+ newline_indent lvl +:+ "]".
Proof. reflexivity. Qed.

Lemma iterencode_dict (lvl : nat) (kv : string * json) (d : list (string * json)) :
  iterencode lvl (JDict (kv :: d))
  = "{" +:+ newline_indent (S lvl)
    +:+ join (item_sep (S lvl)) (map (enc_pair (S lvl)) (kv :: d))
    +:+ newline_indent lvl +:+ "}".
Proof. reflexivity. Qed.

Lemma join_cons (sep x y : string) (l : list string) :
  join sep (x :: y :: l) = x +:+ sep +:+ join sep (y :: l).
Proof. reflexivity. Qed.

Lemma join_map_cons {A} (sep : string) (f : A -> string) (x y : A) (l : list A) :
  join sep (map f (x :: y :: l)) = f x +:+ sep +:+ join sep (map f (y :: l)).
Proof. reflexivity. Qed.

(** The text of a value starts with a character that is neither white
    space nor a closing bracket. *)
Definition opens_value (c : ascii) : Prop :=
  is_ws c = false /\ Ascii.eqb c "]" = false.

Lemma iterencode_head (lvl : nat) (v : json) :
  exists c r, iterencode lvl v = String c r /\ opens_value c.
Proof.
  destruct v as [ |[|]|s|[|x l]|[|kv d]]; eexists; eexists;
    (split; [reflexivity | split; reflexivity]).
Qed.

Lemma skip_ws_spaces (n : nat) (c : ascii) (r : string) :
  is_ws c = false -> skip_ws (spaces n +:+ String c r) = String c r.
Proof.
  intros Hc. induction n as [|n IH].
  - cbn [spaces]. rewrite app_empty_l. cbn [skip_ws]. rewrite Hc. reflexivity.
  - cbn [spaces]. rewrite app_assoc_s, !app_cons, app_empty_l. exact IH.
Qed.

Lemma skip_ws_newline_indent (n : nat) (c : ascii) (r : string) :
  is_ws c = false -> skip_ws (newline_indent n +:+ String c r) = String c r.
Proof.
  intros Hc. unfold newline_indent. rewrite app_cons.
  change (skip_ws (String "010" ?s)) with (skip_ws s).
  apply skip_ws_spaces, Hc.
Qed.

Lemma skip_ws_head (c : ascii) (r : string) :
  is_ws c = false -> skip_ws (String c r) = String c r.
Proof. intros Hc. cbn [skip_ws]. rewrite Hc. reflexivity. Qed.

Lemma scan_once_string (fuel : nat) (s rest : string) :
  scan_once (S fuel) (encode_basestring s +:+ rest) = Some (JStr s, rest).
Proof.
  unfold encode_basestring. rewrite app_cons, app_assoc_s, app_cons, app_empty_l.
  cbn [scan_once]. change (Ascii.eqb dquote dquote) with true. cbv iota.
  rewrite scanstring_escape; [reflexivity|].
  rewrite length_app_s. pose proof (escape_length s). lia.
Qed.

Lemma starts_with_app (p rest : string) : starts_with p (p +:+ rest) = Some rest.
Proof.
  unfold starts_with.
  assert (String.prefix p (p +:+ rest) = true) as ->.
  { induction p as [|c p IH]; [destruct rest; reflexivity|].
    rewrite app_cons. cbn [String.prefix].
    destruct (ascii_dec c c) as [_|Hc]; [exact IH | congruence]. }
  f_equal. rewrite length_app_s.
  replace (String.length p + String.length rest - String.length p)
    with (String.length rest) by lia.
  induction p as [|c p IH]; [|rewrite app_cons; exact IH].
  cbn [String.length]. rewrite app_empty_l.
  induction rest as [|c rest IH]; [reflexivity|].
  cbn [String.length String.substring]. rewrite IH. reflexivity.
Qed.

Lemma scan_once_literal (fuel : nat) (c : ascii) (r : string) :
  Ascii.eqb c dquote = false -> Ascii.eqb c "{" = false -> Ascii.eqb c "[" = false ->
  scan_once (S fuel) (String c r)
  = match starts_with "null" (String c r), starts_with "true" (String c r),
          starts_with "false" (String c r) with
    | Some r', _, _ => Some (JNull, r')
    | _, Some r', _ => Some (JBool true, r')
    | _, _, Some r' => Some (JBool false, r')
    | _, _, _ => None
    end.
Proof. intros H1 H2 H3. cbn [scan_once]. rewrite H1, H2, H3. reflexivity. Qed.

Lemma scan_once_null (fuel : nat) (rest : string) :
  scan_once (S fuel) ("null" +:+ rest) = Some (JNull, rest).
Proof.
  change ("null" +:+ rest) with (String "n" ("ull" +:+ rest)).
  rewrite scan_once_literal by reflexivity.
  change (String "n" ("ull" +:+ rest)) with ("null" +:+ rest).
  rewrite starts_with_app. reflexivity.
Qed.

Lemma scan_once_true (fuel : nat) (rest : string) :
  scan_once (S fuel) ("true" +:+ rest) = Some (JBool true, rest).
Proof.
  change ("true" +:+ rest) with (String "t" ("rue" +:+ rest)).
  rewrite scan_once_literal by reflexivity.
  change (starts_with "null" (String "t" ("rue" +:+ rest))) with (@None string).
  change (String "t" ("rue" +:+ rest)) with ("true" +:+ rest).
  rewrite starts_with_app. reflexivity.
Qed.

Lemma scan_once_false (fuel : nat) (rest : string) :
  scan_once (S fuel) ("false" +:+ rest) = Some (JBool false, rest).
Proof.
  change ("false" +:+ rest) with (String "f" ("alse" +:+ rest)).
  rewrite scan_once_literal by reflexivity.
  change (starts_with "null" (String "f" ("alse" +:+ rest))) with (@None string).
  change (starts_with "true" (String "f" ("alse" +:+ rest))) with (@None string).
  change (String "f" ("alse" +:+ rest)) with ("false" +:+ rest).
  rewrite starts_with_app. reflexivity.
Qed.

(** A value is read back from its text, whatever follows it. *)
Definition reads_back (v : json) : Prop :=
  wf_json v = true ->
  forall lvl fuel rest,
    jsize v <= fuel ->
    scan_once fuel (iterencode lvl v +:+ rest) = Some (v, rest).

Definition items_size (l : list json) : nat :=
  list_sum (map (fun x => S (jsize x)) l).

Definition pairs_size (d : list (string * json)) : nat :=
  list_sum (map (fun kv => S (jsize (snd kv))) d).

Ltac size_lia :=
  unfold items_size, pairs_size in *; cbn [map list_sum fold_right jsize fst snd] in *; lia.

Lemma array_items_reads_back (n1 n0 : nat) (rest : string) (l : list json) :
  Forall reads_back l ->
  forallb wf_json l = true ->
  forall v acc fuel,
    reads_back v -> wf_json v = true ->
    items_size (v :: l) <= fuel ->
    array_items fuel
      (join (item_sep n1) (map (iterencode n1) (v :: l))
       +:+ newline_indent n0 +:+ String "]" rest) acc
    = Some (JList (acc ++ v :: l), rest).
Proof.
  intros Hl. induction Hl as [|v' l Hv' Hl IH]; intros Hwf v acc fuel Hv Hwfv Hfuel.
  - destruct fuel as [|fuel]; [size_lia|].
    cbn [map join array_items].
    rewrite (Hv Hwfv) by size_lia.
    rewrite skip_ws_newline_indent by reflexivity.
    reflexivity.
  - destruct fuel as [|fuel]; [size_lia|].
    cbn [forallb] in Hwf. apply andb_prop in Hwf as [Hwfv' Hwf].
    change (map (iterencode n1) (v :: v' :: l))
      with (iterencode n1 v :: map (iterencode n1) (v' :: l)).
    cbn [map]. rewrite join_cons, !app_assoc_s. cbn [array_items].
    rewrite (Hv Hwfv) by size_lia.
    unfold item_sep at 1. rewrite !app_cons, app_empty_l.
    rewrite skip_ws_head by reflexivity.
    change (Ascii.eqb "," "]") with false. change (Ascii.eqb "," ",") with true.
    cbv iota.
    assert (exists c r, join (item_sep n1) (iterencode n1 v' :: map (iterencode n1) l)
                        = String c r /\ opens_value c) as (c & r & Hj & Hc & _).
    { destruct (iterencode_head n1 v') as (c & r & -> & Hc).
      destruct (map (iterencode n1) l); eexists; eexists; (split; [|exact Hc]).
      - reflexivity.
      - rewrite join_cons, app_cons. reflexivity. }
    rewrite Hj, app_cons, skip_ws_newline_indent by exact Hc.
    rewrite <- app_cons, <- Hj.
    specialize (IH Hwf v' (acc ++ [v]) fuel Hv' Hwfv').
    cbn [map] in IH. rewrite IH.
    + rewrite <- app_assoc. reflexivity.
    + size_lia.
Qed.

Lemma enc_pair_text (lvl : nat) (k : string) (v : json) (tail : string) :
  enc_pair lvl (k, v) +:+ tail
  = String dquote (escape k +:+ String dquote
      (String ":" (String " " (iterencode lvl v +:+ tail)))).
Proof.
  unfold enc_pair, encode_basestring. cbn [fst snd].
  rewrite !app_assoc_s, app_cons, !app_assoc_s. reflexivity.
Qed.

Lemma join_enc_pair_head (n1 : nat) (kv : string * json) (d : list (string * json))
    (tail : string) :
  exists s, join (item_sep n1) (map (enc_pair n1) (kv :: d)) +:+ tail
            = String dquote s.
Proof.
  destruct kv as [k v]. destruct d as [|kv' d]; cbn [map].
  - cbn [join]. rewrite enc_pair_text. eexists. reflexivity.
  - rewrite join_cons, app_assoc_s, enc_pair_text. eexists. reflexivity.
Qed.

(** The text after its first character. *)
Definition after_quote (s : string) : string :=
  match s with
  | EmptyString => EmptyString
  | String _ t => t
  end.

Lemma object_items_reads_back (n1 n0 : nat) (rest : string) (d : list (string * json)) :
  Forall (fun kv => reads_back (snd kv)) d ->
  forallb (fun kv => wf_json (snd kv)) d = true ->
  forall kv pairs fuel,
    reads_back (snd kv) -> wf_json (snd kv) = true ->
    pairs_size (kv :: d) <= fuel ->
    object_items fuel
      (after_quote (join (item_sep n1) (map (enc_pair n1) (kv :: d))
                    +:+ newline_indent n0 +:+ String "}" rest)) pairs
    = Some (JDict (dict_of_pairs (pairs ++ kv :: d)), rest).
Proof.
  intros Hd. induction Hd as [|kv' d Hkv' Hd IH];
    intros Hwf [k v] pairs fuel Hv Hwfv Hfuel; cbn [snd] in Hv, Hwfv.
  - destruct fuel as [|fuel]; [size_lia|].
    cbn [map join]. rewrite enc_pair_text. cbn [after_quote].
    cbn [object_items]. rewrite scanstring_escape.
    2:{ rewrite length_app_s. pose proof (escape_length k). lia. }
    rewrite skip_ws_head by reflexivity.
    change (Ascii.eqb ":" ":") with true. cbv iota.
    destruct (iterencode_head n1 v) as (c & r & Hhead & Hc & _).
    rewrite Hhead, app_cons.
    change (skip_ws (String " " ?x)) with (skip_ws x).
    rewrite skip_ws_head by exact Hc. rewrite <- app_cons, <- Hhead.
    rewrite (Hv Hwfv) by size_lia.
    rewrite skip_ws_newline_indent by reflexivity.
    reflexivity.
  - destruct fuel as [|fuel]; [size_lia|].
    cbn [forallb] in Hwf. apply andb_prop in Hwf as [Hwfv' Hwf].
    specialize (IH Hwf kv' (pairs ++ [(k, v)]) fuel Hkv' Hwfv').
    destruct (join_enc_pair_head n1 kv' d (newline_indent n0 +:+ String "}" rest))
      as [s' Hs'].
    rewrite Hs' in IH. cbn [after_quote] in IH.
    rewrite join_map_cons, !app_assoc_s, enc_pair_text, Hs'. cbn [after_quote].
    cbn [object_items]. rewrite scanstring_escape.
    2:{ rewrite length_app_s. pose proof (escape_length k). lia. }
    rewrite skip_ws_head by reflexivity.
    change (Ascii.eqb ":" ":") with true. cbv iota.
    destruct (iterencode_head n1 v) as (c & r & Hhead & Hc & _).
    rewrite Hhead, app_cons.
    change (skip_ws (String " " ?x)) with (skip_ws x).
    rewrite skip_ws_head by exact Hc. rewrite <- app_cons, <- Hhead.
    rewrite (Hv Hwfv) by size_lia.
    unfold item_sep at 1. rewrite !app_cons, app_empty_l.
    rewrite skip_ws_head by reflexivity.
    change (Ascii.eqb "," "}") with false. change (Ascii.eqb "," ",") with true.
    cbv iota.
    rewrite skip_ws_newline_indent by reflexivity.
    change (Ascii.eqb dquote dquote) with true. cbv iota.
    rewrite IH by size_lia. rewrite <- app_assoc. reflexivity.
Qed.

Lemma set_fresh {V} (k : string) (v : V) (d : PyDict.t V) :
  k ∉ PyDict.keys d -> PyDict.set k v d = d ++ [(k, v)].
Proof.
  induction d as [|[k' v'] d IH]; intros Hk; [reflexivity|].
  cbn [PyDict.set]. cbn [PyDict.keys map fst] in Hk.
  apply not_elem_of_cons in Hk as [Hne Hk].
  destruct (String.eqb_spec k k') as [->|_]; [congruence|].
  fold (PyDict.keys d) in Hk. rewrite IH by exact Hk. reflexivity.
Qed.

(** [dict(pairs)] of pairs with distinct keys is the pairs, in order. *)
Lemma dict_of_pairs_nodup {V} (d : list (string * V)) :
  NoDup (map fst d) -> dict_of_pairs d = d.
Proof.
  unfold dict_of_pairs, PyDict.empty.
  change d with ([] ++ d) at 1 3. generalize (@nil (string * V)) as pre.
  induction d as [|[k v] d IH]; intros pre Hnd; cbn [fold_left].
  - rewrite app_nil_r. reflexivity.
  - cbn [fst snd]. rewrite set_fresh.
    + rewrite IH; rewrite <- app_assoc; [reflexivity | exact Hnd].
    + rewrite map_app in Hnd. apply NoDup_app in Hnd as (_ & Hdis & _).
      intros Hin. apply (Hdis k Hin). left.
Qed.

(** Every value whose dictionaries have distinct keys is read back from the
    text [json.dump] writes for it. *)
Theorem scan_once_iterencode (v : json) : reads_back v.
Proof.
  induction v as [ |b|s|l IHl|d IHd] using json_nested_ind;
    intros Hwf lvl fuel rest Hfuel.
  - destruct fuel as [|fuel]; [cbn in Hfuel; lia | apply scan_once_null].
  - destruct fuel as [|fuel]; [cbn in Hfuel; lia|].
    destruct b; [apply scan_once_true | apply scan_once_false].
  - destruct fuel as [|fuel]; [cbn in Hfuel; lia | apply scan_once_string].
  - destruct fuel as [|fuel]; [cbn in Hfuel; lia|].
    destruct l as [|v l]; [reflexivity|].
    apply Forall_cons_1 in IHl as [Hv Hl].
    cbn [wf_json forallb] in Hwf. apply andb_prop in Hwf as [Hwfv Hwfl].
    rewrite iterencode_list, !app_assoc_s, !app_cons, !app_empty_l.
    cbn [scan_once]. change (Ascii.eqb "[" dquote) with false.
    change (Ascii.eqb "[" "{") with false. change (Ascii.eqb "[" "[") with true.
    cbv iota.
    assert (exists c r, join (item_sep (S lvl)) (map (iterencode (S lvl)) (v :: l))
                        = String c r /\ opens_value c) as (c & r & Hj & Hc & Hc').
    { cbn [map]. destruct (iterencode_head (S lvl) v) as (c & r & -> & Hc).
      destruct (map (iterencode (S lvl)) l); eexists; eexists; (split; [|exact Hc]).
      - reflexivity.
      - rewrite join_cons, app_cons. reflexivity. }
    rewrite Hj, app_cons, skip_ws_newline_indent by exact Hc.
    rewrite Hc'. rewrite <- app_cons, <- Hj.
    rewrite (array_items_reads_back (S lvl) lvl rest l Hl Hwfl v [] fuel Hv Hwfv);
      [reflexivity | size_lia].
  - destruct fuel as [|fuel]; [cbn in Hfuel; lia|].
    destruct d as [|kv d]; [reflexivity|].
    apply Forall_cons_1 in IHd as [Hv Hd].
    cbn [wf_json forallb] in Hwf. apply andb_prop in Hwf as [Hnd Hwf].
    apply andb_prop in Hwf as [Hwfv Hwfd]. apply bool_decide_eq_true in Hnd.
    rewrite iterencode_dict, !app_assoc_s, !app_cons, !app_empty_l.
    cbn [scan_once]. change (Ascii.eqb "{" dquote) with false.
    change (Ascii.eqb "{" "{") with true. cbv iota.
    destruct (join_enc_pair_head (S lvl) kv d
                (newline_indent lvl +:+ String "}" rest)) as [s Hs].
    rewrite Hs, skip_ws_newline_indent by reflexivity.
    change (Ascii.eqb dquote "}") with false.
    change (Ascii.eqb dquote dquote) with true. cbv iota.
    pose proof (object_items_reads_back (S lvl) lvl rest d Hd Hwfd kv [] fuel Hv Hwfv)
      as Hitems.
    rewrite Hs in Hitems. cbn [after_quote] in Hitems.
    rewrite Hitems by size_lia.
    rewrite app_nil_l, dict_of_pairs_nodup by exact Hnd. reflexivity.
Qed.

(** ** [json.loads] after [json.dump] *)

Lemma app_empty_r_s (s : string) : s +:+ "" = s.
Proof. induction s as [|c s IH]; [reflexivity|]. rewrite app_cons, IH. reflexivity. Qed.

Lemma newline_indent_length (n : nat) : 1 <= String.length (newline_indent n).
Proof. unfold newline_indent. cbn [String.length]. lia. Qed.

Lemma item_sep_length (n : nat) : 1 <= String.length (item_sep n).
Proof. unfold item_sep. rewrite app_cons. cbn [String.length]. lia. Qed.

Lemma join_length {A} (sep : string) (f : A -> string) (size : A -> nat) (l : list A) :
  1 <= String.length sep ->
  Forall (fun x => size x <= String.length (f x)) l ->
  list_sum (map (fun x => S (size x)) l) <= S (String.length (join sep (map f l))).
Proof.
  intros Hsep Hl. induction Hl as [|x l Hx Hl IH]; [cbn; lia|].
  destruct l as [|y l].
  - cbn [map join list_sum fold_right]. lia.
  - rewrite join_map_cons, !length_app_s.
    change (map (fun x => S (size x)) (x :: y :: l))
      with (S (size x) :: map (fun x => S (size x)) (y :: l)).
    unfold list_sum in *. cbn [fold_right]. lia.
Qed.

(** The decoder makes no more calls than the text has characters. *)
Lemma jsize_le_length (v : json) :
  forall lvl, jsize v <= String.length (iterencode lvl v).
Proof.
  induction v as [ |b|s|l IHl|d IHd] using json_nested_ind; intros lvl.
  - cbn. lia.
  - destruct b; cbn; lia.
  - cbn [jsize iterencode]. unfold encode_basestring. cbn [String.length]. lia.
  - destruct l as [|v l]; [cbn; lia|].
    rewrite iterencode_list, !length_app_s. cbn [jsize].
    pose proof (join_length (item_sep (S lvl)) (iterencode (S lvl)) jsize (v :: l)
                  (item_sep_length _)) as Hj.
    pose proof (newline_indent_length (S lvl)).
    cbn [String.length]. apply le_n_S. etransitivity; [apply Hj|]; [|lia].
    eapply Forall_impl; [exact IHl|]. intros x Hx. apply Hx.
  - destruct d as [|kv d]; [cbn; lia|].
    rewrite iterencode_dict, !length_app_s. cbn [jsize].
    pose proof (join_length (item_sep (S lvl)) (enc_pair (S lvl))
                  (fun kv => jsize (snd kv)) (kv :: d) (item_sep_length _)) as Hj.
    pose proof (newline_indent_length (S lvl)).
    cbn [String.length]. apply le_n_S. etransitivity; [apply Hj|]; [|lia].
    eapply Forall_impl; [exact IHd|]. intros x Hx. cbn beta.
    unfold enc_pair. rewrite !length_app_s. specialize (Hx (S lvl)). lia.
Qed.

(** What [json.dump] writes, [json.loads] reads back as the same value. *)
Theorem json_loads_dump (v : json) :
  wf_json v = true -> json_loads (json_dump v) = Some v.
Proof.
  intros Hwf. unfold json_loads, json_dump.
  destruct (iterencode_head 0 v) as (c & r & Hhead & Hc & _).
  rewrite Hhead at 2. rewrite skip_ws_head by exact Hc. rewrite <- Hhead.
  rewrite <- (app_empty_r_s (iterencode 0 v)) at 2.
  rewrite (scan_once_iterencode v Hwf).
  - reflexivity.
  - pose proof (jsize_le_length v 0). lia.
Qed.

Lemma record_json_wf (rec : PincodeRecord) : wf_json (record_json rec) = true.
Proof. vm_compute. reflexivity. Qed.

Lemma records_json_wf (records : list PincodeRecord) :
  wf_json (records_json records) = true.
Proof.
  unfold records_json. cbn [wf_json]. apply forallb_forall.
  intros v Hv. apply in_map_iff in Hv as (rec & <- & _). apply record_json_wf.
Qed.

Lemma json_record_record_json (rec : PincodeRecord) :
  json_record (record_json rec) = Some rec.
Proof. destruct rec. reflexivity. Qed.

Lemma json_records_records_json (records : list PincodeRecord) :
  json_records (records_json records) = Some records.
Proof.
  unfold json_records, records_json.
  induction records as [|rec records IH]; [reflexivity|].
  cbn [map mapM]. rewrite json_record_record_json. cbn. rewrite IH. reflexivity.
Qed.

(** C8: the text written to pincodes.json for the records in memory, parsed
    back, is the array of the same objects, and these are the records,
    field for field; so it is for the records [main] has accumulated from
    any table. *)
Theorem C8_pincodes_json_round_trip (records : list PincodeRecord) :
  json_loads (json_dump (records_json records)) = Some (records_json records) /\
  json_records (records_json records) = Some records /\
  forall rows,
    json_loads (json_dump (records_json (fst (accumulate rows)))) ≫= json_records
    = Some (fst (accumulate rows)).
Proof.
  split; [|split].
  - apply json_loads_dump, records_json_wf.
  - apply json_records_records_json.
  - intros rows. rewrite json_loads_dump by apply records_json_wf.
    apply json_records_records_json.
Qed.

(** * The process *)

Section ProcessFacts.
Context `{Platform}.

Lemma os_path_join_inj (a x y : string) :
  os_path_join a x = os_path_join a y -> x = y.
Proof.
  unfold os_path_join. destruct (negb (nonempty a) || ends_with_sep a); intros Heq.
  - apply (String.app_inj a), Heq.
  - apply (String.app_inj "/"), (String.app_inj a), Heq.
Qed.

End ProcessFacts.

Ltac unfold_main :=
  unfold run, main, parse_args, read_csv, makedirs, open_read, open_write,
    print, emit, lift, bind, ret, raise.

Ltac reduce_main :=
  cbv beta iota zeta; cbn [of_result files trace fst snd pincsv bankcsv outdir].


(** Case analysis on the next library call of the run. *)
Ltac next_call :=
  match goal with
  | |- context [os_makedirs ?a ?b] =>
      destruct (os_makedirs a b) as [[[]|?exc] ?fs] eqn:?Hmakedirs
  | |- context [read_text ?a ?b] =>
      destruct (read_text a b) as [?text|?exc] eqn:?Hread
  | |- context [csv_rows ?a] =>
      destruct (csv_rows a) as [?rows|?exc] eqn:?Hcsv
  | |- context [write_text ?a ?b ?c] =>
      destruct (write_text a b c) as [[[]|?exc] ?fs] eqn:?Hwrite
  end; reduce_main.

Ltac trace_eq := rewrite <- ?app_assoc; cbn [app]; reflexivity.

Section ProcessClaims.
Context `{Platform}.

(** C6: without [--pincsv] the process reports the missing option on the
    error stream and ends with status 2; the file system is the one it
    started with and no call was made to it. *)
Theorem C6_missing_pincsv_is_usage_error (cl : CommandLine) (w : World) :
  opt_pincsv cl = None ->
  let report := [Stderr missing_pincsv] in
  run cl w = (2%Z, {| files := files w; trace := trace w ++ report |}) /\
  2%Z <> 0%Z /\
  List.filter is_fs_event report = [].
Proof.
  intros Hp report. split; [|split; [discriminate | reflexivity]].
  unfold_main. rewrite Hp. reflexivity.
Qed.

(** C5: when the table of [--pincsv] cannot be opened and read, as when
    its path does not exist, the process ends with status 1; no file was
    opened for writing; and the file system is the one [os.makedirs]
    left. *)
Theorem C5_missing_table_writes_nothing (cl : CommandLine) (w : World)
    (p exc : string) :
  opt_pincsv cl = Some p ->
  read_text p (snd (os_makedirs (default "mock-api" (opt_outdir cl)) (files w)))
  = Fails exc ->
  exists t,
    run cl w
    = (1%Z, {| files := snd (os_makedirs (default "mock-api" (opt_outdir cl)) (files w));
               trace := trace w ++ t |}) /\
    1%Z <> 0%Z /\
    List.filter is_write t = [].
Proof.
  intros Hp Hrd. revert Hrd. unfold_main. rewrite Hp. reduce_main.
  destruct (os_makedirs _ _) as [[[]|exc'] fs1] eqn:Hmk; reduce_main; intros Hrd.
  - rewrite Hrd. reduce_main.
    eexists. split; [f_equal; f_equal; trace_eq|].
    split; [discriminate | reflexivity].
  - eexists. split; [f_equal; f_equal; trace_eq|].
    split; [discriminate | reflexivity].
Qed.

(** The events of a run that was given [--pincsv] start with the call of
    [os.makedirs]; a file is opened only when that call has returned. *)
Lemma run_starts_with_makedirs (cl : CommandLine) (w : World) (p : string) :
  opt_pincsv cl = Some p ->
  let outd := default "mock-api" (opt_outdir cl) in
  exists t,
    trace (snd (run cl w)) = trace w ++ (Makedirs outd :: t) /\
    (forall q, OpenRead q ∈ t ->
       exists fs1, os_makedirs outd (files w) = (Return tt, fs1)).
Proof.
  intros Hp outd. unfold_main. rewrite Hp. reduce_main. fold outd.
  next_call.
  2:{ eexists. split; [trace_eq|]. intros q Hq.
      apply list_elem_of_singleton in Hq. discriminate. }
  assert (exists fs1 : FS, (Return tt, fs) = (Return tt, fs1)) as Hret by eauto.
  next_call.
  2:{ eexists. split; [trace_eq | intros q _; exact Hret]. }
  next_call.
  2:{ eexists. split; [trace_eq | intros q _; exact Hret]. }
  next_call.
  2:{ eexists. split; [trace_eq | intros q _; exact Hret]. }
  next_call.
  2:{ eexists. split; [trace_eq | intros q _; exact Hret]. }
  destruct (opt_bankcsv cl) as [[|c b]|]; reduce_main.
  1,3: eexists; (split; [trace_eq | intros q _; exact Hret]).
  next_call.
  2:{ eexists. split; [trace_eq | intros q _; exact Hret]. }
  next_call.
  2:{ eexists. split; [trace_eq | intros q _; exact Hret]. }
  next_call; eexists; (split; [trace_eq | intros q _; exact Hret]).
Qed.

(** C10: in every run a file is opened for reading only after the call
    of [os.makedirs] on the output directory, which has returned, so the
    directory is there; and when the directory could be made and the table
    of [--pincsv] cannot be opened and read, as when its path does not
    exist, the run ends with status 1 after that call and the failed
    opening of the table, nothing written, and leaves the file system with
    the output directory in it. *)
Theorem C10_outdir_made_before_table_opened (cl : CommandLine) (w : World) :
  let outd := default "mock-api" (opt_outdir cl) in
  (forall q t1 t2,
      trace (snd (run cl w)) = trace w ++ t1 ++ OpenRead q :: t2 ->
      (exists t1', t1 = Makedirs outd :: t1') /\
      exists fs1, os_makedirs outd (files w) = (Return tt, fs1) /\
                  isdir fs1 outd = true) /\
  (forall p fs1 exc,
      opt_pincsv cl = Some p ->
      os_makedirs outd (files w) = (Return tt, fs1) ->
      read_text p fs1 = Fails exc ->
      run cl w
      = (1%Z, {| files := fs1;
                 trace := trace w ++
                   [Makedirs outd;
                    Stdout (join " " ["Reading pincodes CSV from"; p]);
                    OpenRead p;
                    Stderr exc] |}) /\
      isdir fs1 outd = true).
Proof.
  intros outd. split.
  - intros q t1 t2 Htrace. destruct (opt_pincsv cl) as [p|] eqn:Hp.
    + destruct (run_starts_with_makedirs cl w p Hp) as (t & Ht & Hmk).
      fold outd in Ht, Hmk. rewrite Ht in Htrace.
      apply app_inv_head in Htrace.
      destruct t1 as [|e t1']; [discriminate|]. injection Htrace as <- ->.
      split; [eauto|].
      destruct (Hmk q) as [fs1 Hfs1].
      { apply elem_of_app. right. left. }
      exists fs1. split; [exact Hfs1 | apply (makedirs_isdir _ _ _ Hfs1)].
    + exfalso. revert Htrace. unfold_main. rewrite Hp. reduce_main.
      intros Htrace. apply app_inv_head in Htrace.
      destruct t1 as [|e1 [|e2 t1]]; discriminate.
  - intros p fs1 exc Hp Hmk Hrd.
    split; [|apply (makedirs_isdir _ _ _ Hmk)].
    unfold_main. rewrite Hp. reduce_main. fold outd. rewrite Hmk. reduce_main.
    rewrite Hrd. reduce_main. f_equal. f_equal. trace_eq.
Qed.

(** The events of a run without [--bankcsv]: the table of [--pincsv] is
    the only file read, and the two files of the postal-code table are
    the only files written. *)
Definition postal_event (cl : CommandLine) (e : event) : Prop :=
  match e with
  | OpenRead q => opt_pincsv cl = Some q
  | OpenWrite q _ =>
      q = os_path_join (default "mock-api" (opt_outdir cl)) "pincodes.json" \/
      q = os_path_join (default "mock-api" (opt_outdir cl)) "index.json"
  | _ => True
  end.

Ltac events_ok :=
  repeat first [ apply List.Forall_nil
               | apply List.Forall_cons;
                 [cbv beta iota delta [postal_event]; auto|] ].

Lemma run_without_bankcsv (cl : CommandLine) (w : World) :
  opt_bankcsv cl = None ->
  exists t, trace (snd (run cl w)) = trace w ++ t /\ Forall (postal_event cl) t.
Proof.
  intros Hb. unfold_main. destruct (opt_pincsv cl) as [p|] eqn:Hp; reduce_main.
  2:{ eexists. split; [trace_eq | events_ok]. }
  rewrite Hb. unfold postal_event. rewrite Hp.
  next_call.
  2:{ eexists. split; [trace_eq | events_ok]. }
  next_call.
  2:{ eexists. split; [trace_eq | events_ok]. }
  next_call.
  2:{ eexists. split; [trace_eq | events_ok]. }
  next_call.
  2:{ eexists. split; [trace_eq | events_ok]. }
  next_call; eexists; (split; [trace_eq | events_ok]).
Qed.

(** C7: without [--bankcsv] the run reads no file but the postal-code
    table and writes no file but pincodes.json and index.json, so no
    bank_serviceability.json, whatever else happens; and it has no error
    of its own: when the directory is made, the table read and the two
    files written, the run ends with status 0 after these calls. *)
Theorem C7_without_bankcsv (cl : CommandLine) (w : World) :
  opt_bankcsv cl = None ->
  let outd := default "mock-api" (opt_outdir cl) in
  let pincodes_path := os_path_join outd "pincodes.json" in
  let index_path := os_path_join outd "index.json" in
  let bank_path := os_path_join outd "bank_serviceability.json" in
  (exists t,
      trace (snd (run cl w)) = trace w ++ t /\
      (forall q, OpenRead q ∈ t -> opt_pincsv cl = Some q) /\
      (forall q text, OpenWrite q text ∈ t -> q = pincodes_path \/ q = index_path) /\
      (forall text, OpenWrite bank_path text ∉ t)) /\
  (forall p fs1 text rows fs2 fs3,
      opt_pincsv cl = Some p ->
      os_makedirs outd (files w) = (Return tt, fs1) ->
      read_text p fs1 = Return text ->
      csv_rows text = Return rows ->
      write_text pincodes_path (json_dump (records_json (fst (accumulate rows)))) fs1
      = (Return tt, fs2) ->
      write_text index_path (json_dump (index_json (snd (accumulate rows)))) fs2
      = (Return tt, fs3) ->
      run cl w
      = (0%Z, {| files := fs3;
                 trace := trace w ++
                   [Makedirs outd;
                    Stdout (join " " ["Reading pincodes CSV from"; p]);
                    OpenRead p;
                    OpenWrite pincodes_path
                      (json_dump (records_json (fst (accumulate rows))));
                    Stdout (join " " ["Wrote"; pincodes_path; "(";
                                      str_of_nat (length (fst (accumulate rows)));
                                      "records)"]);
                    OpenWrite index_path
                      (json_dump (index_json (snd (accumulate rows))));
                    Stdout (join " " ["Wrote"; index_path]);
                    Stdout (join " " ["Done."])] |})).
Proof.
  intros Hb outd pincodes_path index_path bank_path. split.
  - destruct (run_without_bankcsv cl w Hb) as (t & Ht & Hall).
    exists t. rewrite Forall_forall in Hall. repeat split.
    + exact Ht.
    + intros q Hq. apply (Hall _ Hq).
    + intros q text Hq. apply (Hall _ Hq).
    + intros text Hq. destruct (Hall _ Hq) as [Heq|Heq];
        apply os_path_join_inj in Heq; discriminate.
  - intros p fs1 text rows fs2 fs3 Hp Hmk Hrd Hcsv Hw1 Hw2.
    unfold_main. rewrite Hp, Hb. reduce_main.
    fold outd. rewrite Hmk. reduce_main. rewrite Hrd. reduce_main.
    rewrite Hcsv. reduce_main. fold pincodes_path. rewrite Hw1. reduce_main.
    fold index_path. rewrite Hw2. reduce_main.
    f_equal. f_equal. trace_eq.
Qed.

End ProcessClaims.

(** * Concrete runs on the small platform *)

#[local] Existing Instance Simple.platform.

Definition sample_table : string :=
  "pincode,officeName,district,state" +:+ String "010"
  ("110001,Connaught Place ,New Delhi,Delhi" +:+ String "010"
  ("110001,Parliament Street,Central Delhi,Delhi" +:+ String "010"
  (" ,Nowhere,," +:+ String "010"
  ("400001,Mumbai GPO,Mumbai,Maharashtra" +:+ String "010" "")))).

Definition sample_disk : gmap string Simple.node :=
  {[ "pincodes.csv" := Simple.File sample_table ]}.

Definition sample_world : @World Simple.platform :=
  @mkWorld Simple.platform sample_disk [].

Definition sample_rows : list Row :=
  match Simple.csv sample_table with
  | Return rows => rows
  | Fails _ => []
  end.

Definition sample_run : CommandLine :=
  mkCommandLine (Some "pincodes.csv") None (Some "out/api").

Definition missing_run : CommandLine :=
  mkCommandLine (Some "missing.csv") None (Some "out/api").

Definition usage_run : CommandLine :=
  mkCommandLine None (Some "banks.csv") (Some "out/api").

Example sample_records :
  fst (accumulate sample_rows)
  = [mkRecord "110001" "Connaught Place" "New Delhi" "Delhi";
     mkRecord "110001" "Parliament Street" "Central Delhi" "Delhi";
     mkRecord "400001" "Mumbai GPO" "Mumbai" "Maharashtra"].
Proof. vm_compute; exact eq_refl. Qed.

Lemma C9_index_consistent_witness :
  exists rec,
    PyDict.lookup (snd (accumulate (take 2 sample_rows))) "110001" = Some rec /\
    pincode rec = "110001" /\
    rec ∈ fst (accumulate (take 2 sample_rows)) /\
    last (List.filter (has_pincode "110001") (fst (accumulate (take 2 sample_rows))))
    = Some rec.
Proof.
  apply (C9_index_consistent sample_rows 2 "110001").
  vm_compute. left.
Defined.

Lemma C6_missing_pincsv_witness :
  run usage_run sample_world
  = (2%Z,
     {| files := sample_disk;
        trace := [Stderr missing_pincsv] |}).
Proof.
  apply (C6_missing_pincsv_is_usage_error usage_run sample_world). reflexivity.
Defined.

Lemma C5_missing_table_witness :
  exists t,
    run missing_run sample_world
    = (1%Z, {| files := snd (Simple.fs_makedirs "out/api" sample_disk);
               trace := [] ++ t |}) /\
    1%Z <> 0%Z /\
    List.filter is_write t = [].
Proof.
  apply (C5_missing_table_writes_nothing missing_run sample_world "missing.csv"
           "FileNotFoundError").
  - reflexivity.
  - vm_compute; exact eq_refl.
Defined.

Lemma C10_outdir_made_witness :
  run missing_run sample_world
  = (1%Z, {| files := snd (Simple.fs_makedirs "out/api" sample_disk);
             trace := [] ++
               [Makedirs "out/api";
                Stdout (join " " ["Reading pincodes CSV from"; "missing.csv"]);
                OpenRead "missing.csv";
                Stderr "FileNotFoundError"] |}) /\
  Simple.is_dir_at (snd (Simple.fs_makedirs "out/api" sample_disk)) "out/api" = true.
Proof.
  apply (proj2 (C10_outdir_made_before_table_opened missing_run sample_world)
           "missing.csv" (snd (Simple.fs_makedirs "out/api" sample_disk))
           "FileNotFoundError").
  - reflexivity.
  - vm_compute; exact eq_refl.
  - vm_compute; exact eq_refl.
Defined.

Lemma C7_without_bankcsv_witness :
  exists w',
    run sample_run sample_world = (0%Z, w') /\
    List.filter is_fs_event (trace w')
    = [Makedirs "out/api";
       OpenRead "pincodes.csv";
       OpenWrite "out/api/pincodes.json"
         (json_dump (records_json (fst (accumulate sample_rows))));
       OpenWrite "out/api/index.json"
         (json_dump (index_json (snd (accumulate sample_rows))))].
Proof.
  eexists. split.
  - apply (proj2 (C7_without_bankcsv sample_run sample_world eq_refl)
             "pincodes.csv"
             (snd (Simple.fs_makedirs "out/api" sample_disk))
             sample_table sample_rows
             (snd (Simple.fs_write "out/api/pincodes.json"
                     (json_dump (records_json (fst (accumulate sample_rows))))
                     (snd (Simple.fs_makedirs "out/api" sample_disk))))
             (snd (Simple.fs_write "out/api/index.json"
                     (json_dump (index_json (snd (accumulate sample_rows))))
                     (snd (Simple.fs_write "out/api/pincodes.json"
                             (json_dump (records_json (fst (accumulate sample_rows))))
                             (snd (Simple.fs_makedirs "out/api" sample_disk))))))).
    + reflexivity.
    + vm_compute; exact eq_refl.
    + vm_compute; exact eq_refl.
    + vm_compute; exact eq_refl.
    + vm_compute; exact eq_refl.
    + vm_compute; exact eq_refl.
  - vm_compute; exact eq_refl.
Defined.

(** * Further properties of the two loops *)

(** ** Trimmed fields *)

Definition head_nonspace (s : string) : bool :=
  match s with
  | EmptyString => true
  | String c _ => negb (isspace c)
  end.

(** A string with no white space at either end. *)
Definition trimmed (s : string) : Prop := lstrip s = s /\ rstrip s = s.

Lemma lstrip_head_nonspace (s : string) : head_nonspace (lstrip s) = true.
Proof.
  induction s as [|c s IH]; [reflexivity|]. cbn [lstrip].
  destruct (isspace c) eqn:Hc; [exact IH|]. cbn [head_nonspace]. rewrite Hc. reflexivity.
Qed.

Lemma lstrip_fixed (s : string) : head_nonspace s = true -> lstrip s = s.
Proof.
  destruct s as [|c s]; [reflexivity|]. cbn [head_nonspace lstrip].
  destruct (isspace c); [discriminate | reflexivity].
Qed.

Lemma rstrip_head_nonspace (s : string) :
  head_nonspace s = true -> head_nonspace (rstrip s) = true.
Proof.
  destruct s as [|c s]; [reflexivity|]. cbn [head_nonspace rstrip].
  destruct (isspace c) eqn:Hc; [discriminate|]. intros _.
  destruct (rstrip s); cbn [head_nonspace]; rewrite Hc; reflexivity.
Qed.

Lemma rstrip_cons (c : ascii) (s : string) :
  rstrip (String c s)
  = match rstrip s with
    | EmptyString => if isspace c then EmptyString else String c EmptyString
    | String c' t => String c (String c' t)
    end.
Proof. cbn [rstrip]. destruct (rstrip s); reflexivity. Qed.

Lemma rstrip_rstrip (s : string) : rstrip (rstrip s) = rstrip s.
Proof.
  induction s as [|c s IH]; [reflexivity|]. rewrite rstrip_cons.
  destruct (rstrip s) as [|c' t] eqn:Hr.
  - destruct (isspace c) eqn:Hc; [reflexivity|]. rewrite rstrip_cons.
    cbn [rstrip]. rewrite Hc. reflexivity.
  - rewrite rstrip_cons, IH. reflexivity.
Qed.

Lemma strip_trimmed (s : string) : trimmed (strip s).
Proof.
  unfold trimmed, strip. split.
  - apply lstrip_fixed, rstrip_head_nonspace, lstrip_head_nonspace.
  - apply rstrip_rstrip.
Qed.

(** X1: no field of a normalized record, and no field of a bank entry, has
    white space at its start or at its end. *)
Theorem X1_fields_are_trimmed (row : Row) :
  Forall trimmed [pincode (normalize_record row); officeName (normalize_record row);
                  district (normalize_record row); state (normalize_record row);
                  bank_pincode row; bank (bank_entry row); status (bank_entry row)].
Proof. repeat (apply List.Forall_cons; [apply strip_trimmed|]). apply List.Forall_nil. Qed.

(** ** Columns the script does not read *)

Definition record_columns : list string :=
  pincode_variants ++ officeName_variants ++ district_variants ++ state_variants.

Definition bank_columns : list string :=
  pincode_variants ++ bank_variants ++ status_variants.

Ltac column_in := apply list_elem_of_In; cbn; tauto.

(** X2: a record depends on the row only through the cells of the column
    names the script tries, and a bank entry likewise: rows that agree on
    them, a missing cell counting as [None], give the same record. *)
Theorem X2_other_columns_ignored (row row' : Row) :
  (Forall (fun k => get row k = get row' k) record_columns ->
   normalize_record row = normalize_record row') /\
  (Forall (fun k => get row k = get row' k) bank_columns ->
   bank_pincode row = bank_pincode row' /\ bank_entry row = bank_entry row').
Proof.
  split; intros Hcols; rewrite Forall_forall in Hcols.
  - unfold normalize_record.
    rewrite !(Hcols "pincode"), !(Hcols "PINCODE"), !(Hcols "Pincode"),
      !(Hcols "PinCode"), !(Hcols "officeName"), !(Hcols "OFFICENAME"),
      !(Hcols "OfficeName"), !(Hcols "office"), !(Hcols "Office"),
      !(Hcols "district"), !(Hcols "DISTRICT"), !(Hcols "District"),
      !(Hcols "state"), !(Hcols "STATE"), !(Hcols "State") by column_in.
    reflexivity.
  - unfold bank_pincode, bank_entry.
    rewrite !(Hcols "pincode"), !(Hcols "PINCODE"), !(Hcols "Pincode"),
      !(Hcols "PinCode"), !(Hcols "bank"), !(Hcols "Bank"), !(Hcols "BANK"),
      !(Hcols "status"), !(Hcols "Status"), !(Hcols "STATUS") by column_in.
    split; reflexivity.
Qed.

Lemma X2_other_columns_ignored_witness :
  normalize_record {[ "pincode" := PStr "110001"; "circle" := PStr "Delhi" ]}
  = normalize_record {[ "pincode" := PStr "110001"; "Office" := PNone ]}.
Proof.
  apply (proj1 (X2_other_columns_ignored _ _)).
  repeat (apply List.Forall_cons; [vm_compute; reflexivity|]). apply List.Forall_nil.
Defined.

(** ** The index and the array *)

Definition mem (k : string) (l : list string) : bool := existsb (String.eqb k) l.

(** The distinct strings of a list, each at its first place. *)
Fixpoint first_seen (l : list string) : list string :=
  match l with
  | [] => []
  | k :: l' => k :: List.filter (fun k' => negb (String.eqb k' k)) (first_seen l')
  end.

Lemma mem_elem_of (k : string) (l : list string) : mem k l = true <-> k ∈ l.
Proof.
  unfold mem. rewrite existsb_exists, list_elem_of_In. split.
  - intros (x & Hx & Heq). apply String.eqb_eq in Heq as ->. exact Hx.
  - intros Hk. exists k. split; [exact Hk | apply String.eqb_refl].
Qed.

Lemma mem_keys {V} (d : PyDict.t V) (k : string) :
  mem k (PyDict.keys d) = if PyDict.lookup d k is Some _ then true else false.
Proof.
  induction d as [|[k' v] d IH]; [reflexivity|].
  unfold mem in *. cbn [PyDict.keys map fst existsb PyDict.lookup].
  destruct (String.eqb k k'); [reflexivity | exact IH].
Qed.

Lemma filter_ext_in_bool {A} (p q : A -> bool) (l : list A) :
  (forall x, x ∈ l -> p x = q x) -> List.filter p l = List.filter q l.
Proof.
  intros Hpq. apply List.filter_ext_in. intros x Hx. apply Hpq, list_elem_of_In, Hx.
Qed.

(** How the keys of a dictionary grow in a loop that, at each step, assigns
    to one key. *)
Lemma keys_fold_left {D A} (K : D -> list string) (key : A -> string)
    (step : D -> A -> D) :
  (forall d a, K (step d a) = if mem (key a) (K d) then K d else K d ++ [key a]) ->
  forall l d,
    K (fold_left step l d)
    = K d ++ List.filter (fun k => negb (mem k (K d))) (first_seen (map key l)).
Proof.
  intros Hstep. induction l as [|a l IH]; intros d; cbn [fold_left map first_seen].
  - cbn. rewrite app_nil_r. reflexivity.
  - rewrite IH, Hstep. cbn [List.filter].
    destruct (mem (key a) (K d)) eqn:Hmem; cbn [negb].
    + f_equal. rewrite filter_filter. apply filter_ext_in_bool. intros x _.
      destruct (String.eqb_spec x (key a)) as [->|_]; cbn [negb andb];
        [rewrite Hmem|]; reflexivity.
    + rewrite <- app_assoc. cbn [app]. f_equal. f_equal.
      rewrite filter_filter. apply filter_ext_in_bool. intros x _.
      unfold mem. rewrite existsb_app. cbn [existsb]. rewrite orb_false_r.
      rewrite negb_orb. apply andb_comm.
Qed.

Lemma first_seen_elem_of (l : list string) (k : string) : k ∈ first_seen l <-> k ∈ l.
Proof.
  induction l as [|x l IH]; [reflexivity|]. cbn [first_seen].
  rewrite !elem_of_cons, list_elem_of_In, filter_In, <- list_elem_of_In, IH.
  destruct (String.eqb_spec k x) as [->|Hne]; cbn [negb]; intuition congruence.
Qed.

Lemma NoDup_filter_bool {A} (p : A -> bool) (l : list A) :
  NoDup l -> NoDup (List.filter p l).
Proof.
  induction 1 as [|x l Hx Hl IH]; cbn [List.filter]; [constructor|].
  destruct (p x); [|exact IH]. constructor; [|exact IH].
  rewrite list_elem_of_In, filter_In, <- list_elem_of_In. tauto.
Qed.

Lemma first_seen_NoDup (l : list string) : NoDup (first_seen l).
Proof.
  induction l as [|x l IH]; cbn [first_seen]; constructor.
  - rewrite list_elem_of_In, filter_In, String.eqb_refl. cbn. intros [_ ?]. discriminate.
  - apply NoDup_filter_bool, IH.
Qed.

Lemma filter_length_le {A} (p : A -> bool) (l : list A) :
  length (List.filter p l) <= length l.
Proof. induction l as [|x l IH]; cbn; [lia|]. destruct (p x); cbn; lia. Qed.

Lemma first_seen_length (l : list string) : length (first_seen l) <= length l.
Proof.
  induction l as [|x l IH]; cbn [first_seen length]; [lia|].
  pose proof (filter_length_le (fun k' => negb (String.eqb k' x)) (first_seen l)). lia.
Qed.

Lemma first_seen_fixed (l : list string) : NoDup l -> first_seen l = l.
Proof.
  induction 1 as [|x l Hx Hl IH]; [reflexivity|]. cbn [first_seen]. rewrite IH. f_equal.
  clear IH Hl. induction l as [|y l IH]; [reflexivity|]. cbn [List.filter].
  apply not_elem_of_cons in Hx as [Hne Hx].
  destruct (String.eqb_spec y x) as [->|_]; [congruence|]. cbn [negb]. rewrite IH by exact Hx.
  reflexivity.
Qed.

Lemma keys_set_mem {V} (d : PyDict.t V) (k : string) (v : V) :
  PyDict.keys (PyDict.set k v d)
  = if mem k (PyDict.keys d) then PyDict.keys d else PyDict.keys d ++ [k].
Proof. rewrite keys_set, mem_keys. destruct (PyDict.lookup d k); reflexivity. Qed.

Lemma filter_all {A} (l : list A) : List.filter (fun _ => true) l = l.
Proof. induction l as [|x l IH]; [reflexivity|]. cbn [List.filter]. rewrite IH. reflexivity. Qed.

Lemma keys_dict_of_pairs {V} (pairs : list (string * V)) :
  PyDict.keys (dict_of_pairs pairs) = first_seen (map fst pairs).
Proof.
  unfold dict_of_pairs.
  rewrite (keys_fold_left PyDict.keys fst (fun d kv => PyDict.set (fst kv) (snd kv) d)).
  - cbn. apply filter_all.
  - intros d a. apply keys_set_mem.
Qed.

Definition keyed (rec : PincodeRecord) : string * PincodeRecord := (pincode rec, rec).

Lemma dict_of_pairs_snoc {V} (pairs : list (string * V)) (k : string) (v : V) :
  dict_of_pairs (pairs ++ [(k, v)]) = PyDict.set k v (dict_of_pairs pairs).
Proof. unfold dict_of_pairs. rewrite fold_left_app. reflexivity. Qed.

(** The index is the dictionary of the array's records under their
    pincodes. *)
Lemma index_of_records (rows : list Row) :
  snd (accumulate rows) = dict_of_pairs (map keyed (fst (accumulate rows))).
Proof.
  induction rows as [|r rows IH] using rev_ind; [reflexivity|].
  rewrite accumulate_snoc, acc_step_kept. destruct (kept r); cbn [fst snd]; [|exact IH].
  rewrite map_app. cbn [map]. unfold keyed at 2. rewrite dict_of_pairs_snoc, IH.
  reflexivity.
Qed.

Lemma records_nonempty_pincode (rows : list Row) (rec : PincodeRecord) :
  rec ∈ fst (accumulate rows) -> pincode rec <> "".
Proof.
  rewrite records_filtered. intros Hin.
  apply list_elem_of_fmap in Hin as (r & -> & Hr).
  apply list_elem_of_In, filter_In in Hr as [_ Hk]. apply nonempty_true, Hk.
Qed.

Lemma index_keys (rows : list Row) :
  PyDict.keys (snd (accumulate rows)) = first_seen (map pincode (fst (accumulate rows))).
Proof.
  rewrite index_of_records, keys_dict_of_pairs, map_map. reflexivity.
Qed.

(** X3: the index is the dictionary that [dict] would build from the
    array, each record under its pincode; so the keys of index.json are the
    distinct pincodes of pincodes.json, each once, in the order in which
    they first come in the array, and none of them is empty. *)
Theorem X3_index_built_from_array (rows : list Row) :
  snd (accumulate rows) = dict_of_pairs (map keyed (fst (accumulate rows))) /\
  PyDict.keys (snd (accumulate rows))
  = first_seen (map pincode (fst (accumulate rows))) /\
  NoDup (PyDict.keys (snd (accumulate rows))) /\
  "" ∉ PyDict.keys (snd (accumulate rows)).
Proof.
  split; [apply index_of_records|]. split; [apply index_keys|]. rewrite index_keys. split.
  - apply first_seen_NoDup.
  - rewrite first_seen_elem_of. intros Hin.
    apply list_elem_of_fmap in Hin as (rec & Hrec & Hin).
    apply (records_nonempty_pincode rows rec Hin). symmetry. exact Hrec.
Qed.

(** X4: the array has one record for each row that is kept, so its length
    and the number of dropped rows add up to the number of rows; the index
    has at most as many entries as the array, and exactly as many when no
    two records share a pincode. *)
Theorem X4_sizes (rows : list Row) :
  length (fst (accumulate rows))
  + length (List.filter (fun r => negb (kept r)) rows) = length rows /\
  length (snd (accumulate rows)) <= length (fst (accumulate rows)) /\
  (NoDup (map pincode (fst (accumulate rows))) ->
   length (snd (accumulate rows)) = length (fst (accumulate rows))).
Proof.
  assert (length (snd (accumulate rows))
          = length (first_seen (map pincode (fst (accumulate rows))))) as Hlen.
  { rewrite <- index_keys. unfold PyDict.keys. rewrite length_map. reflexivity. }
  split; [|split].
  - rewrite records_filtered, length_map. clear Hlen.
    induction rows as [|r rows IH]; [reflexivity|]. cbn [List.filter].
    destruct (kept r); simpl; lia.
  - rewrite Hlen. etransitivity; [apply first_seen_length|]. rewrite length_map. lia.
  - intros Hnd. rewrite Hlen, first_seen_fixed by exact Hnd. apply length_map.
Qed.

Lemma X4_sizes_witness :
  length (snd (accumulate [ {[ "pincode" := PStr "110001" ]};
                            {[ "pincode" := PStr "400001" ]};
                            {[ "PinCode" := PStr "" ]} ]))
  = length (fst (accumulate [ {[ "pincode" := PStr "110001" ]};
                              {[ "pincode" := PStr "400001" ]};
                              {[ "PinCode" := PStr "" ]} ])).
Proof.
  apply (proj2 (proj2 (X4_sizes _))).
  apply (bool_decide_unpack _). vm_compute. exact I.
Defined.

(** ** Tables in two parts *)

(** X5: the rows of a second table, taken after those of a first, add their
    records after the first table's, and their index entries override the
    first table's: a pincode of the second table maps to its record there,
    any other pincode to what the first table gave. *)
Theorem X5_accumulate_app (rows1 rows2 : list Row) (k : string) :
  fst (accumulate (rows1 ++ rows2)) = fst (accumulate rows1) ++ fst (accumulate rows2) /\
  PyDict.lookup (snd (accumulate (rows1 ++ rows2))) k
  = match PyDict.lookup (snd (accumulate rows2)) k with
    | Some rec => Some rec
    | None => PyDict.lookup (snd (accumulate rows1)) k
    end.
Proof.
  assert (fst (accumulate (rows1 ++ rows2))
          = fst (accumulate rows1) ++ fst (accumulate rows2)) as Hrec.
  { rewrite !records_filtered, List.filter_app, map_app. reflexivity. }
  split; [exact Hrec|].
  rewrite !index_last, Hrec, List.filter_app, last_app.
  destruct (last (List.filter (has_pincode k) (fst (accumulate rows2)))); reflexivity.
Qed.

(** ** The bank map *)

(** The number of entries of a bank map, over all its keys. *)
Definition entries_count (m : BankMap) : nat :=
  list_sum (map (fun kv => length (snd kv)) m).

(** The step of the bank loop on a row that is kept. *)
Definition bank_put (m : BankMap) (b : Row) : BankMap :=
  let '(l, m1) := PyDict.setdefault (bank_pincode b) [] m in
  PyDict.set (bank_pincode b) (l ++ [bank_entry b]) m1.

Lemma bank_step_put (m : BankMap) (b : Row) :
  bank_step m b = if bank_kept b then bank_put m b else m.
Proof. unfold bank_step, bank_put, bank_kept. destruct (nonempty _); reflexivity. Qed.

Lemma bank_accumulate_kept (bank_rows : list Row) :
  bank_accumulate bank_rows
  = fold_left bank_put (List.filter bank_kept bank_rows) PyDict.empty.
Proof.
  unfold bank_accumulate. generalize (@PyDict.empty (list BankEntry)) as m.
  induction bank_rows as [|b rows IH]; intros m; [reflexivity|].
  cbn [fold_left List.filter]. rewrite IH, bank_step_put.
  destruct (bank_kept b); reflexivity.
Qed.

Lemma set_set_keys {V} (d : PyDict.t V) (k : string) (v v' : V) :
  PyDict.keys (PyDict.set k v (PyDict.set k v' d)) = PyDict.keys (PyDict.set k v' d).
Proof.
  rewrite (keys_set (PyDict.set k v' d)), lookup_set_eq. reflexivity.
Qed.

Lemma bank_put_keys (m : BankMap) (b : Row) :
  PyDict.keys (bank_put m b)
  = if mem (bank_pincode b) (PyDict.keys m) then PyDict.keys m
    else PyDict.keys m ++ [bank_pincode b].
Proof.
  unfold bank_put, PyDict.setdefault. rewrite mem_keys.
  destruct (PyDict.lookup m (bank_pincode b)) as [l|] eqn:Hl.
  - rewrite keys_set, Hl. reflexivity.
  - rewrite set_set_keys, keys_set, Hl. reflexivity.
Qed.

Lemma entries_count_set (m : BankMap) (k : string) (l : list BankEntry) :
  entries_count (PyDict.set k l m) + length (default [] (PyDict.lookup m k))
  = entries_count m + length l.
Proof.
  unfold entries_count. induction m as [|[k' l'] m IH].
  - cbn. lia.
  - cbn [PyDict.set PyDict.lookup]. destruct (String.eqb k k').
    + cbn. lia.
    + cbn [map list_sum fold_right snd] in *. unfold list_sum in IH. lia.
Qed.

Lemma bank_put_count (m : BankMap) (b : Row) :
  entries_count (bank_put m b) = S (entries_count m).
Proof.
  unfold bank_put, PyDict.setdefault.
  destruct (PyDict.lookup m (bank_pincode b)) as [l|] eqn:Hl.
  - pose proof (entries_count_set m (bank_pincode b) (l ++ [bank_entry b])) as Hc.
    rewrite Hl, length_app in Hc. cbn in Hc. lia.
  - pose proof (entries_count_set (PyDict.set (bank_pincode b) [] m) (bank_pincode b)
                  ([] ++ [bank_entry b])) as Hc.
    rewrite lookup_set_eq in Hc.
    pose proof (entries_count_set m (bank_pincode b) []) as Hc'.
    rewrite Hl in Hc'. cbn in Hc, Hc'. cbn [app]. lia.
Qed.

Lemma bank_keys (bank_rows : list Row) :
  PyDict.keys (bank_accumulate bank_rows)
  = first_seen (map bank_pincode (List.filter bank_kept bank_rows)).
Proof.
  rewrite bank_accumulate_kept.
  rewrite (keys_fold_left PyDict.keys bank_pincode bank_put bank_put_keys).
  cbn. apply filter_all.
Qed.

(** X6: the keys of the bank map are the distinct pincodes of the kept bank
    rows, each once, in the order in which they first come, and none is
    empty; no key has an empty list; and the lists hold, together, one
    entry for each kept row. *)
Theorem X6_bank_map_shape (bank_rows : list Row) :
  PyDict.keys (bank_accumulate bank_rows)
  = first_seen (map bank_pincode (List.filter bank_kept bank_rows)) /\
  NoDup (PyDict.keys (bank_accumulate bank_rows)) /\
  ("" ∉ PyDict.keys (bank_accumulate bank_rows)) /\
  (forall k, PyDict.lookup (bank_accumulate bank_rows) k <> Some []) /\
  entries_count (bank_accumulate bank_rows)
  = length (List.filter bank_kept bank_rows).
Proof.
  split; [apply bank_keys|]. rewrite bank_keys. split; [apply first_seen_NoDup|].
  split; [|split].
  - rewrite first_seen_elem_of. intros Hin.
    apply list_elem_of_fmap in Hin as (b & Hb & Hin).
    apply list_elem_of_In, filter_In in Hin as [_ Hk].
    unfold bank_kept in Hk. rewrite <- Hb in Hk. discriminate.
  - intros k. rewrite bank_accumulate_lookup.
    destruct (map bank_entry (bank_rows_with k bank_rows)); discriminate.
  - rewrite bank_accumulate_kept.
    assert (forall l m, entries_count (fold_left bank_put l m)
                        = length l + entries_count m) as Hfold.
    { induction l as [|b l IH]; intros m; [reflexivity|].
      cbn [fold_left length]. rewrite IH, bank_put_count. lia. }
    rewrite Hfold. cbn. lia.
Qed.

(** X7: the bank rows of a second table, taken after those of a first, add
    their entries after the first table's under every key. *)
Theorem X7_bank_accumulate_app (rows1 rows2 : list Row) (k : string) :
  default [] (PyDict.lookup (bank_accumulate (rows1 ++ rows2)) k)
  = default [] (PyDict.lookup (bank_accumulate rows1) k)
    ++ default [] (PyDict.lookup (bank_accumulate rows2) k).
Proof.
  rewrite !bank_accumulate_lookup. unfold bank_rows_with.
  rewrite List.filter_app, map_app.
  assert (forall l : list BankEntry, default [] (nonnil l) = l) as Hd
    by (intros [|x l]; reflexivity).
  rewrite !Hd. reflexivity.
Qed.

(** ** The other two files, read back *)

Lemma mapM_map_Some {A B} (f : A -> B) (g : B -> option A) (l : list A) :
  (forall x, g (f x) = Some x) -> mapM g (map f l) = Some l.
Proof.
  intros Hgf. induction l as [|x l IH]; [reflexivity|].
  cbn [map mapM]. rewrite Hgf. cbn. rewrite IH. reflexivity.
Qed.

Lemma json_index_index_json (index : PincodeIndex) :
  json_index (index_json index) = Some index.
Proof.
  unfold json_index, index_json. apply mapM_map_Some.
  intros [k rec]. cbn [fst snd]. rewrite json_record_record_json. reflexivity.
Qed.

Lemma json_bank_map_bank_map_json (m : BankMap) :
  json_bank_map (bank_map_json m) = Some m.
Proof.
  unfold json_bank_map, bank_map_json. apply mapM_map_Some.
  intros [k es]. cbn [fst snd json_entries].
  rewrite (mapM_map_Some entry_json json_entry); [reflexivity|].
  intros [b s]. reflexivity.
Qed.

Lemma index_json_wf (index : PincodeIndex) :
  NoDup (PyDict.keys index) -> wf_json (index_json index) = true.
Proof.
  intros Hnd. unfold index_json. cbn [wf_json]. apply andb_true_intro. split.
  - apply bool_decide_eq_true. rewrite map_map. exact Hnd.
  - apply forallb_forall. intros kv Hkv. apply in_map_iff in Hkv as (x & <- & _).
    apply record_json_wf.
Qed.

Lemma bank_map_json_wf (m : BankMap) :
  NoDup (PyDict.keys m) -> wf_json (bank_map_json m) = true.
Proof.
  intros Hnd. unfold bank_map_json. cbn [wf_json]. apply andb_true_intro. split.
  - apply bool_decide_eq_true. rewrite map_map. exact Hnd.
  - apply forallb_forall. intros kv Hkv. apply in_map_iff in Hkv as (x & <- & _).
    cbn [snd wf_json]. apply forallb_forall. intros v Hv.
    apply in_map_iff in Hv as ([b s] & <- & _). reflexivity.
Qed.

(** X8: the text written to index.json, parsed back, is the object of the
    same records under the same keys in the same order: the index in
    memory is recovered from it. *)
Theorem X8_index_json_round_trip (rows : list Row) :
  json_loads (json_dump (index_json (snd (accumulate rows))))
  = Some (index_json (snd (accumulate rows))) /\
  json_loads (json_dump (index_json (snd (accumulate rows)))) ≫= json_index
  = Some (snd (accumulate rows)).
Proof.
  assert (wf_json (index_json (snd (accumulate rows))) = true) as Hwf.
  { apply index_json_wf. rewrite index_keys. apply first_seen_NoDup. }
  rewrite (json_loads_dump _ Hwf). split; [reflexivity|]. apply json_index_index_json.
Qed.

(** X9: the text written to bank_serviceability.json, parsed back, is the
    object of the same lists of entries under the same keys: the bank map
    in memory is recovered from it. *)
Theorem X9_bank_json_round_trip (bank_rows : list Row) :
  json_loads (json_dump (bank_map_json (bank_accumulate bank_rows)))
  = Some (bank_map_json (bank_accumulate bank_rows)) /\
  json_loads (json_dump (bank_map_json (bank_accumulate bank_rows))) ≫= json_bank_map
  = Some (bank_accumulate bank_rows).
Proof.
  assert (wf_json (bank_map_json (bank_accumulate bank_rows)) = true) as Hwf.
  { apply bank_map_json_wf. rewrite bank_keys. apply first_seen_NoDup. }
  rewrite (json_loads_dump _ Hwf). split; [reflexivity|]. apply json_bank_map_bank_map_json.
Qed.

(** * Further properties of the process *)

Section ProcessExtras.
Context `{Platform}.

Ltac outcome_ok :=
  eexists; split; [trace_eq|]; cbn [fst];
  first [ left; split; reflexivity
        | right; split; [reflexivity | eexists; reflexivity] ].

(** X10: once the arguments are parsed, that is on a command line that
    [argparse] accepts and that gives [--pincsv], a run ends in one of
    two ways, which its exit status tells apart: with status 0, and then
    its last line is Done. on the output stream; or with status 1, after
    an exception of a library call, which is reported last, on the error
    stream. *)
Theorem X10_exit_status (cl : CommandLine) (w : World) (p : string) :
  opt_pincsv cl = Some p ->
  exists t,
    trace (snd (run cl w)) = trace w ++ t /\
    ((fst (run cl w) = 0%Z /\ last t = Some (Stdout "Done.")) \/
     (fst (run cl w) = 1%Z /\ exists exc, last t = Some (Stderr exc))).
Proof.
  intros Hp. unfold_main. rewrite Hp. reduce_main.
  next_call; [|outcome_ok].
  next_call; [|outcome_ok].
  next_call; [|outcome_ok].
  next_call; [|outcome_ok].
  next_call; [|outcome_ok].
  destruct (opt_bankcsv cl) as [[|c b]|]; reduce_main; [outcome_ok| |outcome_ok].
  next_call; [|outcome_ok].
  next_call; [|outcome_ok].
  next_call; outcome_ok.
Qed.

(** X11: the first library call that raises ends the run with status 1,
    and no later call is made: when [os.makedirs] raises, no file is
    opened; when the table cannot be parsed, no file is written; when
    pincodes.json cannot be written, index.json is not tried. *)
Theorem X11_first_failure_ends_run (cl : CommandLine) (w : World) (p : string) :
  opt_pincsv cl = Some p ->
  let outd := default "mock-api" (opt_outdir cl) in
  let pincodes_path := os_path_join outd "pincodes.json" in
  let reading := Stdout (join " " ["Reading pincodes CSV from"; p]) in
  (forall exc fs1,
      os_makedirs outd (files w) = (Fails exc, fs1) ->
      run cl w = (1%Z, {| files := fs1;
                          trace := trace w ++ [Makedirs outd; Stderr exc] |})) /\
  (forall fs1 text exc,
      os_makedirs outd (files w) = (Return tt, fs1) ->
      read_text p fs1 = Return text ->
      csv_rows text = Fails exc ->
      run cl w = (1%Z, {| files := fs1;
                          trace := trace w ++ [Makedirs outd; reading; OpenRead p;
                                               Stderr exc] |})) /\
  (forall fs1 text rows exc fs2,
      os_makedirs outd (files w) = (Return tt, fs1) ->
      read_text p fs1 = Return text ->
      csv_rows text = Return rows ->
      write_text pincodes_path (json_dump (records_json (fst (accumulate rows)))) fs1
      = (Fails exc, fs2) ->
      run cl w
      = (1%Z, {| files := fs2;
                 trace := trace w ++
                   [Makedirs outd; reading; OpenRead p;
                    OpenWrite pincodes_path
                      (json_dump (records_json (fst (accumulate rows))));
                    Stderr exc] |})).
Proof.
  intros Hp outd pincodes_path reading. split; [|split].
  - intros exc fs1 Hmk. unfold_main. rewrite Hp. reduce_main. fold outd.
    rewrite Hmk. reduce_main. f_equal. f_equal. trace_eq.
  - intros fs1 text exc Hmk Hrd Hcsv. unfold_main. rewrite Hp. reduce_main. fold outd.
    rewrite Hmk. reduce_main. rewrite Hrd. reduce_main. rewrite Hcsv. reduce_main.
    f_equal. f_equal. trace_eq.
  - intros fs1 text rows exc fs2 Hmk Hrd Hcsv Hw. unfold_main. rewrite Hp. reduce_main.
    fold outd. rewrite Hmk. reduce_main. rewrite Hrd. reduce_main.
    rewrite Hcsv. reduce_main. fold pincodes_path. rewrite Hw. reduce_main.
    f_equal. f_equal. trace_eq.
Qed.

(** The events of the postal-code part of a run that goes through. *)
Definition postal_events (outd p : string) (rows : list Row) : list event :=
  [Makedirs outd;
   Stdout (join " " ["Reading pincodes CSV from"; p]);
   OpenRead p;
   OpenWrite (os_path_join outd "pincodes.json")
     (json_dump (records_json (fst (accumulate rows))));
   Stdout (join " " ["Wrote"; os_path_join outd "pincodes.json"; "(";
                     str_of_nat (length (fst (accumulate rows))); "records)"]);
   OpenWrite (os_path_join outd "index.json")
     (json_dump (index_json (snd (accumulate rows))));
   Stdout (join " " ["Wrote"; os_path_join outd "index.json"])].

(** The postal-code part goes through, from [fs] to [fs3]. *)
Definition postal_part (outd p : string) (rows : list Row) (fs fs3 : FS) : Prop :=
  exists fs1 text fs2,
    os_makedirs outd fs = (Return tt, fs1) /\
    read_text p fs1 = Return text /\
    csv_rows text = Return rows /\
    write_text (os_path_join outd "pincodes.json")
      (json_dump (records_json (fst (accumulate rows)))) fs1 = (Return tt, fs2) /\
    write_text (os_path_join outd "index.json")
      (json_dump (index_json (snd (accumulate rows)))) fs2 = (Return tt, fs3).

(** X12: the bank table is read only after pincodes.json and index.json
    are written; when it cannot be read or parsed the run ends with
    status 1 and the two files stay written, with no
    bank_serviceability.json. *)
Theorem X12_bank_failure_keeps_postal_files (cl : CommandLine) (w : World)
    (p b : string) (rows : list Row) (fs3 : FS) :
  opt_pincsv cl = Some p ->
  opt_bankcsv cl = Some b ->
  b <> "" ->
  let outd := default "mock-api" (opt_outdir cl) in
  postal_part outd p rows (files w) fs3 ->
  (forall text, read_text b fs3 = Return text -> exists exc, csv_rows text = Fails exc) ->
  exists exc,
    run cl w
    = (1%Z, {| files := fs3;
               trace := trace w ++ postal_events outd p rows ++
                 [Stdout (join " " ["Reading bank serviceability CSV from"; b]);
                  OpenRead b; Stderr exc] |}).
Proof.
  intros Hp Hb Hne outd (fs1 & text & fs2 & Hmk & Hrd & Hcsv & Hw1 & Hw2) Hbank.
  destruct b as [|c b]; [congruence|].
  unfold_main. rewrite Hp, Hb. reduce_main. fold outd.
  rewrite Hmk. reduce_main. rewrite Hrd. reduce_main. rewrite Hcsv. reduce_main.
  rewrite Hw1. reduce_main. rewrite Hw2. reduce_main.
  destruct (read_text (String c b) fs3) as [btext|exc] eqn:Hbrd; reduce_main.
  - destruct (Hbank btext eq_refl) as [exc Hexc]. rewrite Hexc. reduce_main.
    exists exc. f_equal. f_equal. unfold postal_events. trace_eq.
  - exists exc. f_equal. f_equal. unfold postal_events. trace_eq.
Qed.

(** X13: with a bank table that is read and parsed, a run whose calls all
    return ends with status 0, having written the three files in the order
    pincodes.json, index.json, bank_serviceability.json, the last one with
    the text of the bank map of the table. *)
Theorem X13_run_with_bankcsv (cl : CommandLine) (w : World)
    (p b : string) (rows bank_rows : list Row) (fs3 fs4 : FS) (btext : string) :
  opt_pincsv cl = Some p ->
  opt_bankcsv cl = Some b ->
  b <> "" ->
  let outd := default "mock-api" (opt_outdir cl) in
  let bank_path := os_path_join outd "bank_serviceability.json" in
  postal_part outd p rows (files w) fs3 ->
  read_text b fs3 = Return btext ->
  csv_rows btext = Return bank_rows ->
  write_text bank_path (json_dump (bank_map_json (bank_accumulate bank_rows))) fs3
  = (Return tt, fs4) ->
  run cl w
  = (0%Z, {| files := fs4;
             trace := trace w ++ postal_events outd p rows ++
               [Stdout (join " " ["Reading bank serviceability CSV from"; b]);
                OpenRead b;
                OpenWrite bank_path
                  (json_dump (bank_map_json (bank_accumulate bank_rows)));
                Stdout (join " " ["Wrote"; bank_path]);
                Stdout (join " " ["Done."])] |}).
Proof.
  intros Hp Hb Hne outd bank_path (fs1 & text & fs2 & Hmk & Hrd & Hcsv & Hw1 & Hw2)
    Hbrd Hbcsv Hw3.
  destruct b as [|c b]; [congruence|].
  unfold_main. rewrite Hp, Hb. reduce_main. fold outd.
  rewrite Hmk. reduce_main. rewrite Hrd. reduce_main. rewrite Hcsv. reduce_main.
  rewrite Hw1. reduce_main. rewrite Hw2. reduce_main.
  rewrite Hbrd. reduce_main. rewrite Hbcsv. reduce_main.
  fold bank_path. rewrite Hw3. reduce_main.
  f_equal. f_equal. unfold postal_events. trace_eq.
Qed.

(** X14: an empty [--bankcsv] is as no [--bankcsv]: the run is the same. *)
Theorem X14_empty_bankcsv_as_omitted (pin outd : option string) (w : World) :
  run (mkCommandLine pin (Some "") outd) w = run (mkCommandLine pin None outd) w.
Proof. destruct pin; reflexivity. Qed.

(** X15: whatever the output directory, the three files have three
    different paths, so that none is written over another. *)
Theorem X15_output_paths_differ (outd : string) :
  os_path_join outd "pincodes.json" <> os_path_join outd "index.json" /\
  os_path_join outd "pincodes.json" <> os_path_join outd "bank_serviceability.json" /\
  os_path_join outd "index.json" <> os_path_join outd "bank_serviceability.json".
Proof.
  repeat split; intros Heq; apply os_path_join_inj in Heq; discriminate.
Qed.

End ProcessExtras.

(** * Properties of decrypt_pdf.py *)

Section DecryptPdfFacts.
Context `{PdfPlatform}.

(** X16: run with a number of arguments other than three, or without
    [pikepdf], the script prints one line and ends with status 1 without a
    call to the file system or to the library; with [pikepdf] there the
    line is the usage. *)
Theorem X16_decrypt_usage (installed : bool) (argv : list string) (w : PdfWorld) :
  installed = false \/ length argv <> 4 ->
  exists line,
    decrypt_main installed argv w
    = (1%Z, {| disk := disk w; calls := calls w ++ [Printed line] |}) /\
    (installed = true -> line = usage_line).
Proof.
  intros Hbad. unfold decrypt_main.
  destruct installed; cbn [negb].
  - destruct Hbad as [|Hlen]; [discriminate|].
    destruct argv as [|a0 [|a1 [|a2 [|a3 [|a4 argv]]]]]; cbn [length] in Hlen;
      try lia; eexists; (split; [reflexivity | auto]).
  - eexists. split; [reflexivity | discriminate].
Qed.

(** X17: when the input path does not exist the script says so, naming
    the path, and ends with status 1; the library is not called, so the
    password is not used and nothing is written at the output path. *)
Theorem X17_decrypt_missing_input (script input_path password output_path : string)
    (w : PdfWorld) :
  os_path_exists (disk w) input_path = false ->
  decrypt_main true [script; input_path; password; output_path] w
  = (1%Z, {| disk := disk w;
             calls := calls w ++
               [Exists input_path;
                Printed ("ERROR: Input file not found: " +:+ input_path)] |}).
Proof.
  intros Habs. unfold decrypt_main, pdf_print. cbn [negb disk calls].
  rewrite Habs. cbn [negb]. rewrite <- app_assoc. reflexivity.
Qed.

(** X18: every run prints exactly one line and ends with status 0 or 1,
    no exception of the library leaving the script; the status is 0
    exactly when the line is SUCCESS, and then the input path existed and
    the library opened and saved the file without raising; the library is
    called at most once, and only on an input path that exists. *)
Theorem X18_decrypt_outcome (installed : bool) (argv : list string) (w : PdfWorld) :
  exists t,
    calls (snd (decrypt_main installed argv w)) = calls w ++ t /\
    length (List.filter is_print t) = 1 /\
    (fst (decrypt_main installed argv w) = 0%Z
     \/ fst (decrypt_main installed argv w) = 1%Z) /\
    (fst (decrypt_main installed argv w) = 0%Z <-> last t = Some (Printed "SUCCESS")) /\
    (fst (decrypt_main installed argv w) = 0%Z ->
     exists script input_path password output_path,
       argv = [script; input_path; password; output_path] /\
       os_path_exists (disk w) input_path = true /\
       fst (open_and_save input_path password output_path (disk w)) = None) /\
    (forall i pw o,
        OpenSave i pw o ∈ t ->
        os_path_exists (disk w) i = true /\
        List.filter (fun e => negb (is_print e)) t = [Exists i; OpenSave i pw o]).
Proof.
  unfold decrypt_main, decrypt_pdf, pdf_print.
  assert (forall line : string,
             line <> "SUCCESS" ->
             exists t, calls w ++ [Printed line] = calls w ++ t /\
               length (List.filter is_print t) = 1 /\
               (1%Z = 0%Z \/ 1%Z = 1%Z) /\
               (1%Z = 0%Z <-> last t = Some (Printed "SUCCESS")) /\
               (1%Z = 0%Z -> exists script input_path password output_path,
                   argv = [script; input_path; password; output_path] /\
                   os_path_exists (disk w) input_path = true /\
                   fst (open_and_save input_path password output_path (disk w)) = None) /\
               (forall i pw o, OpenSave i pw o ∈ t ->
                   os_path_exists (disk w) i = true /\
                   List.filter (fun e => negb (is_print e)) t
                   = [Exists i; OpenSave i pw o])) as Hone.
  { intros line Hline. exists [Printed line]. split; [reflexivity|].
    split; [reflexivity|]. split; [auto|].
    split; [split; [discriminate | intros [= Hl]; congruence]|].
    split; [discriminate|].
    intros i pw o Hin. apply list_elem_of_singleton in Hin. discriminate. }
  destruct installed; cbn [negb]; [|apply Hone; discriminate].
  destruct argv as [|a0 [|i [|pw [|o [|a4 argv]]]]]; try (apply Hone; discriminate).
  cbn [disk calls].
  destruct (os_path_exists (disk w) i) eqn:Hex; cbn [negb fst snd].
  2:{ eexists. split; [trace_eq|]. split; [reflexivity|]. split; [auto|].
      split; [split; [discriminate | intros Hl; vm_compute in Hl; discriminate]|].
      split; [discriminate|].
      intros i' pw' o' Hin. apply elem_of_cons in Hin as [Hin|Hin]; [discriminate|].
      apply list_elem_of_singleton in Hin. discriminate. }
  destruct (open_and_save i pw o (disk w)) as [[[|message]|] d] eqn:Hsave;
    cbn [fst snd disk calls].
  - eexists. split; [trace_eq|]. split; [reflexivity|]. split; [auto|].
    split; [split; [discriminate | intros Hl; vm_compute in Hl; discriminate]|].
    split; [discriminate|].
    intros i' pw' o' Hin. apply elem_of_cons in Hin as [Hin|Hin]; [discriminate|].
    apply elem_of_cons in Hin as [Hin|Hin];
      [injection Hin as -> -> -> | apply list_elem_of_singleton in Hin; discriminate].
    split; [exact Hex | reflexivity].
  - eexists. split; [trace_eq|]. split; [reflexivity|]. split; [auto|].
    split; [split; [discriminate | intros Hl; vm_compute in Hl; discriminate]|].
    split; [discriminate|].
    intros i' pw' o' Hin. apply elem_of_cons in Hin as [Hin|Hin]; [discriminate|].
    apply elem_of_cons in Hin as [Hin|Hin];
      [injection Hin as -> -> -> | apply list_elem_of_singleton in Hin; discriminate].
    split; [exact Hex | reflexivity].
  - eexists. split; [trace_eq|]. split; [reflexivity|]. split; [auto|].
    split; [split; reflexivity|]. split.
    + intros _. exists a0, i, pw, o. rewrite Hsave. auto.
    + intros i' pw' o' Hin. apply elem_of_cons in Hin as [Hin|Hin]; [discriminate|].
      apply elem_of_cons in Hin as [Hin|Hin];
        [injection Hin as -> -> -> | apply list_elem_of_singleton in Hin; discriminate].
      split; [exact Hex | reflexivity].
Qed.

End DecryptPdfFacts.

(** * Further concrete runs *)

Definition bank_table : string :=
  "pincode,bank,status" +:+ String "010"
  ("110001,X,serviceable" +:+ String "010"
  ("110001,Y,partial" +:+ String "010" "")).

Definition bank_disk : gmap string Simple.node :=
  {[ "pincodes.csv" := Simple.File sample_table; "banks.csv" := Simple.File bank_table ]}.

Definition bank_world : World := mkWorld Simple.platform bank_disk [].

Definition bank_rows_sample : list Row :=
  match Simple.csv bank_table with
  | Return rows => rows
  | Fails _ => []
  end.

(** The disk once the postal-code part of [run] is through. *)
Definition after_postal (d : gmap string Simple.node) : gmap string Simple.node :=
  snd (Simple.fs_write "out/api/index.json"
         (json_dump (index_json (snd (accumulate sample_rows))))
         (snd (Simple.fs_write "out/api/pincodes.json"
                 (json_dump (records_json (fst (accumulate sample_rows))))
                 (snd (Simple.fs_makedirs "out/api" d))))).

Lemma sample_postal_part (d : gmap string Simple.node) :
  d = sample_disk \/ d = bank_disk ->
  postal_part "out/api" "pincodes.csv" sample_rows d (after_postal d).
Proof.
  intros Hd.
  exists (snd (Simple.fs_makedirs "out/api" d)), sample_table,
    (snd (Simple.fs_write "out/api/pincodes.json"
            (json_dump (records_json (fst (accumulate sample_rows))))
            (snd (Simple.fs_makedirs "out/api" d)))).
  destruct Hd as [-> | ->]; repeat split; vm_compute; exact eq_refl.
Defined.

Lemma X10_exit_status_witness :
  exists t,
    trace (snd (run missing_run sample_world)) = [] ++ t /\
    ((fst (run missing_run sample_world) = 0%Z /\ last t = Some (Stdout "Done.")) \/
     (fst (run missing_run sample_world) = 1%Z /\
      exists exc, last t = Some (Stderr exc))).
Proof.
  apply (X10_exit_status missing_run sample_world "missing.csv"). reflexivity.
Defined.

Lemma X11_first_failure_witness :
  run (mkCommandLine (Some "pincodes.csv") None (Some "pincodes.csv")) sample_world
  = (1%Z, {| files := sample_disk;
             trace := [] ++ [Makedirs "pincodes.csv"; Stderr "FileExistsError"] |}).
Proof.
  apply (proj1 (X11_first_failure_ends_run
                  (mkCommandLine (Some "pincodes.csv") None (Some "pincodes.csv"))
                  sample_world "pincodes.csv" eq_refl)).
  vm_compute; exact eq_refl.
Defined.

Lemma X12_bank_failure_witness :
  exists exc,
    run (mkCommandLine (Some "pincodes.csv") (Some "banks.csv") (Some "out/api"))
      sample_world
    = (1%Z, {| files := after_postal sample_disk;
               trace := [] ++ postal_events "out/api" "pincodes.csv" sample_rows ++
                 [Stdout (join " " ["Reading bank serviceability CSV from"; "banks.csv"]);
                  OpenRead "banks.csv"; Stderr exc] |}).
Proof.
  apply (X12_bank_failure_keeps_postal_files
           (mkCommandLine (Some "pincodes.csv") (Some "banks.csv") (Some "out/api"))
           sample_world "pincodes.csv" "banks.csv" sample_rows (after_postal sample_disk)).
  - reflexivity.
  - reflexivity.
  - discriminate.
  - apply sample_postal_part. left. reflexivity.
  - intros text Hrd. vm_compute in Hrd. discriminate.
Defined.

Lemma X13_run_with_bankcsv_witness :
  fst (run (mkCommandLine (Some "pincodes.csv") (Some "banks.csv") (Some "out/api"))
         bank_world) = 0%Z.
Proof.
  rewrite (X13_run_with_bankcsv
             (mkCommandLine (Some "pincodes.csv") (Some "banks.csv") (Some "out/api"))
             bank_world "pincodes.csv" "banks.csv" sample_rows bank_rows_sample
             (after_postal bank_disk)
             (snd (Simple.fs_write "out/api/bank_serviceability.json"
                     (json_dump (bank_map_json (bank_accumulate bank_rows_sample)))
                     (after_postal bank_disk)))
             bank_table).
  - reflexivity.
  - reflexivity.
  - reflexivity.
  - discriminate.
  - apply sample_postal_part. right. reflexivity.
  - vm_compute; exact eq_refl.
  - vm_compute; exact eq_refl.
  - vm_compute; exact eq_refl.
Defined.

(** A disk of PDF files, each with the password that opens it, if any. *)
Module SimplePdf.

Definition pdf_open_save (input_path password output_path : string)
    (d : gmap string (option string * string))
  : option pdf_exception * gmap string (option string * string) :=
  match d !! input_path with
  | None => (Some (OtherException "No such file or directory"), d)
  | Some (None, body) => (None, <[output_path := (None, body)]> d)
  | Some (Some pw, body) =>
      if String.eqb pw password then (None, <[output_path := (None, body)]> d)
      else (Some PasswordError, d)
  end.

#[export] Instance platform : PdfPlatform := {|
  Disk := gmap string (option string * string);
  os_path_exists := fun d p => bool_decide (is_Some (d !! p));
  open_and_save := pdf_open_save
|}.

End SimplePdf.

Definition pdf_world : @PdfWorld SimplePdf.platform :=
  @mkPdfWorld SimplePdf.platform {[ "in.pdf" := (Some "secret", "%PDF") ]} [].

Lemma X16_decrypt_usage_witness :
  exists line,
    @decrypt_main SimplePdf.platform true ["decrypt_pdf.py"; "in.pdf"] pdf_world
    = (1%Z, @mkPdfWorld SimplePdf.platform (disk pdf_world)
              (calls pdf_world ++ [Printed line])) /\
    (true = true -> line = usage_line).
Proof.
  apply (@X16_decrypt_usage SimplePdf.platform true ["decrypt_pdf.py"; "in.pdf"] pdf_world).
  right. cbn. lia.
Defined.

Lemma X17_decrypt_missing_input_witness :
  @decrypt_main SimplePdf.platform true ["decrypt_pdf.py"; "no.pdf"; "secret"; "out.pdf"]
    pdf_world
  = (1%Z, @mkPdfWorld SimplePdf.platform (disk pdf_world)
            (calls pdf_world ++
               [Exists "no.pdf"; Printed ("ERROR: Input file not found: " +:+ "no.pdf")])).
Proof.
  apply (@X17_decrypt_missing_input SimplePdf.platform). vm_compute; exact eq_refl.
Defined.

Example decrypt_with_password :
  fst (@decrypt_main SimplePdf.platform true
         ["decrypt_pdf.py"; "in.pdf"; "secret"; "out.pdf"] pdf_world) = 0%Z /\
  fst (@decrypt_main SimplePdf.platform true
         ["decrypt_pdf.py"; "in.pdf"; "guess"; "out.pdf"] pdf_world) = 1%Z.
Proof. split; vm_compute; reflexivity. Qed.
